(** * FitnessInput: the checkpointed polling engine of TA-GoogleFitness

    A shallow embedding of [TA-GoogleFitness/bin/src/FitnessInput.go]:
    configuration validation, credential resolution from the
    storage/passwords endpoint, strategy dispatch, fetch-window
    computation and checkpoint persistence.

    Go strings are byte strings and are modelled by [string]; a
    [time.Time] is modelled by its instant, a [Z] counting nanoseconds;
    file contents are lists of 8-bit values held in [Z].  Functions with
    effects (store queries, the clock, the checkpoint file, logging,
    [log.Fatal]) live in a state monad whose outcome records a normal
    return, a fatal exit, or a runtime panic. *)

From Stdlib Require Import ZArith Lia.
From stdpp Require Import base option list gmap strings.

Local Open Scope Z_scope.

(** ** Go runtime strings: the parts of package [strings] the input uses *)

Module GoStrings.

(** [s[:n]] *)
Fixpoint slice_to (n : nat) (s : string) : string :=
  match n, s with
  | S n', String c s' => String c (slice_to n' s')
  | _, _ => EmptyString
  end.

(** [s[n:]] *)
Fixpoint slice_from (n : nat) (s : string) : string :=
  match n, s with
  | S n', String _ s' => slice_from n' s'
  | _, _ => s
  end.

(** [strings.HasPrefix s p] *)
Fixpoint HasPrefix (s p : string) {struct p} : bool :=
  match p, s with
  | EmptyString, _ => true
  | String a p', String b s' => if Ascii.eqb a b then HasPrefix s' p' else false
  | String _ _, EmptyString => false
  end.

(** [strings.Index s sep]: position of the first occurrence of [sep]
    in [s]; [None] stands for Go's [-1]. *)
Fixpoint Index (s sep : string) : option nat :=
  if HasPrefix s sep then Some 0%nat
  else match s with
       | EmptyString => None
       | String _ s' => S <$> Index s' sep
       end.

(** [strings.Contains s substr] is [Index(s, substr) >= 0]. *)
Definition Contains (s substr : string) : bool :=
  match Index s substr with Some _ => true | None => false end.

(** The loop of [genSplit] for a non-empty separator: cut at the first
    occurrence, continue with what follows it.  Every round consumes
    at least one byte, so [String.length s] rounds are enough. *)
Fixpoint genSplit (rounds : nat) (s sep : string) : list string :=
  match rounds with
  | O => [s]
  | S r =>
      match Index s sep with
      | None => [s]
      | Some m => slice_to m s :: genSplit r (slice_from (m + String.length sep) s) sep
      end
  end.

(** [strings.Split s sep], for [sep] non-empty (the input only splits
    on ["://"]). *)
Definition Split (s sep : string) : list string :=
  genSplit (String.length s) s sep.

End GoStrings.

Import GoStrings.

(** ** Data delivered by the host (package [splunk]) *)

(** A stanza parameter: [param.Name], [param.Value]. *)
Record Param := { Name : string; Value : string }.

Record Stanza := { StanzaName : string; Params : list Param }.

(** [splunk.ModInputConfig], the fields the input reads. *)
Record ModInputConfig := {
  SessionKey : string;
  CheckpointDir : string;
  Stanzas : list Stanza
}.

(** One attribute of a storage/passwords entry: [key.Name], [key.Value]. *)
Record Key := { Key_Name : string; Key_Value : string }.

(** One storage/passwords entry: [entry.ID], [entry.Contents.Keys]. *)
Record Entry := { ID : string; Contents_Keys : list Key }.

(** The temporary struct of [getTokens] that the JSON payload is decoded into. *)
Record tokenData := {
  AccessToken : string;
  RefreshToken : string;
  TokenType : string;
  Expires : string
}.

Definition APP_NAME : string := "TA-GoogleFitness".
Definition STRATEGY_GOOGLE : string := "GoogleFitness".
Definition STRATEGY_FITBIT : string := "FitBit".
Definition STRATEGY_MICROSOFT : string := "Microsoft".
Definition STRATEGY_PARAM_NAME : string := "FitnessService".
Definition ENFORCE_CERT_VALIDATION : string := "force_cert_validation".

(** ** Values of the Go runtime *)

(** An instant, in nanoseconds. *)
Definition Time : Type := Z.

(** [time.Hour], a [time.Duration] in nanoseconds. *)
Definition Hour : Z := 3600 * 1000000000.

(** [t.Add(d)] *)
Definition Add (t : Time) (d : Z) : Time := t + d.

(** File contents: a list of bytes, each an 8-bit value. *)
Definition bytes : Type := list Z.

(** The text of a Go [error]. *)
Definition error : Type := string.

(** The line feed that ends the log formats. *)
Definition nl : string := String (Ascii.ascii_of_nat 10) EmptyString.

(** A Go call that yields either a value or a non-nil error. *)
Inductive Res (A : Type) : Type :=
| Val (a : A)
| Err (e : error).
Arguments Val {A} a.
Arguments Err {A} e.

(** ** External collaborators

    Functions the input calls but does not define: the token and client
    constructors and the reader's [getData] (other files of the
    package), [encoding/json], [time.Time]'s gob codec and [path.Join]. *)
Class Runtime := {
  Token : Type;
  Client : Type;
  (** [newToken(refreshToken, accessToken, expiry, tokenType)] *)
  newToken : string -> string -> string -> string -> Token;
  (** [getClient(token, clientId, clientSecret)] *)
  getClient : Token -> string -> string -> Client;
  (** [reader.getData(client, writer)] of a [GoogleFitnessReader]
      holding [startTime] and [endTime]: the timestamp to checkpoint. *)
  GoogleFitnessReader_getData : Time -> Time -> Client -> Time;
  (** [json.NewDecoder(strings.NewReader(s)).Decode(temp)] *)
  json_Decode : string -> Res tokenData;
  (** [t.GobEncode()] *)
  GobEncode : Time -> Res bytes;
  (** [t.GobDecode(b)] *)
  GobDecode : bytes -> Res Time;
  (** [path.Join(dir, elem)] *)
  path_Join : string -> string -> string
}.

(** The world around one run: what the storage/passwords endpoint
    answers, which paths refuse a write (and with which error), and the
    successive readings of the clock. *)
Record Host := {
  passwords : Res (list Entry);
  write_error : string -> option error;
  clock : nat -> Time
}.

(** ** The run monad *)

Section Engine.

Context `{RT : Runtime}.

(** What a run does to the outside, in order. *)
Inductive Event : Type :=
| EvLog (msg : string)
| EvGetEntities (sessionKey : string)
| EvGetClient (token : Token) (clientId clientSecret : string)
| EvReadFile (path : string)
| EvGetData (client : Client) (startTime endTime : Time)
| EvWriteFile (path : string) (data : bytes)
| EvWriteFailed (path : string).

Record State := {
  files : gmap string bytes;   (* the checkpoint directory *)
  ticks : nat;                 (* calls of time.Now so far *)
  trace : list Event
}.

(** [Ok]: the call returned.  [Fatal]: [log.Fatal]/[log.Fatalf]
    printed [msg] and exited the process.  [Panic]: a runtime panic. *)
Inductive Outcome (A : Type) : Type :=
| Ok (a : A)
| Fatal (msg : string)
| Panic (msg : string).
Arguments Ok {A} a.
Arguments Fatal {A} msg.
Arguments Panic {A} msg.

Definition M (A : Type) : Type := State -> Outcome A * State.

Definition ret {A} (a : A) : M A := fun s => (Ok a, s).

Definition bind {A B} (m : M A) (k : A -> M B) : M B :=
  fun s =>
    match m s with
    | (Ok a, s') => k a s'
    | (Fatal msg, s') => (Fatal msg, s')
    | (Panic msg, s') => (Panic msg, s')
    end.

Definition log_Fatal {A} (msg : string) : M A := fun s => (Fatal msg, s).

Definition panic {A} (msg : string) : M A := fun s => (Panic msg, s).

Definition emit (e : Event) : M unit :=
  fun s => (Ok tt, {| files := files s; ticks := ticks s; trace := trace s ++ [e] |}).

Definition log_Printf (msg : string) : M unit := emit (EvLog msg).

(** [time.Now()]: the next reading of the clock. *)
Definition time_Now (h : Host) : M Time :=
  fun s => (Ok (clock h (ticks s)),
            {| files := files s; ticks := S (ticks s); trace := trace s |}).

(** [ioutil.ReadFile(path)] *)
Definition ioutil_ReadFile (path : string) : M (Res bytes) :=
  fun s =>
    (Ok match files s !! path with
        | Some b => Val b
        | None => Err ("open " +:+ path +:+ ": no such file or directory")
        end,
     {| files := files s; ticks := ticks s; trace := trace s ++ [EvReadFile path] |}).

(** [ioutil.WriteFile(path, data, 0644)]; [None] is a nil error. *)
Definition ioutil_WriteFile (h : Host) (path : string) (data : bytes) : M (option error) :=
  fun s =>
    match write_error h path with
    | Some e =>
        (Ok (Some e),
         {| files := files s; ticks := ticks s; trace := trace s ++ [EvWriteFailed path] |})
    | None =>
        (Ok None,
         {| files := <[path := data]> (files s); ticks := ticks s;
            trace := trace s ++ [EvWriteFile path data] |})
    end.

(** [splunk.GetEntities(LocalSplunkMgmntURL, {"storage","passwords"},
    APP_NAME, "nobody", sessionKey)] *)
Definition splunk_GetEntities (h : Host) (sessionKey : string) : M (Res (list Entry)) :=
  fun s =>
    (Ok (passwords h),
     {| files := files s; ticks := ticks s; trace := trace s ++ [EvGetEntities sessionKey] |}).

End Engine.

Arguments Ok {A} a.
Arguments Fatal {A} msg.
Arguments Panic {A} msg.

Notation "x <- m ;; k" := (bind m (fun x => k))
  (at level 100, m at next level, right associativity).
Notation "m ;;; k" := (bind m (fun _ => k))
  (at level 100, right associativity).

(** ** FitnessInput.go *)

Section FitnessInput.

Context `{RT : Runtime}.

(** The strategy interface [FitnessReader]; the package constructs
    one implementation, [GoogleFitnessReader]. *)
Inductive FitnessReader : Type :=
| GoogleFitnessReader (startTime endTime : Time).

Definition getData (reader : FitnessReader) (client : Client) : M Time :=
  match reader with
  | GoogleFitnessReader startTime endTime =>
      emit (EvGetData client startTime endTime) ;;;
      ret (GoogleFitnessReader_getData startTime endTime client)
  end.

(** [for _, x := range l { body }] *)
Fixpoint forEach {A} (l : list A) (body : A -> M unit) : M unit :=
  match l with
  | [] => ret tt
  | x :: l' => body x ;;; forEach l' body
  end.

(** *** ValidateScheme *)

Definition knownStrategy (v : string) : bool :=
  String.eqb v STRATEGY_GOOGLE
  || String.eqb v STRATEGY_FITBIT
  || String.eqb v STRATEGY_MICROSOFT.

(** The inner loop: the value of the first offending parameter. *)
Fixpoint improperParam (params : list Param) : option string :=
  match params with
  | [] => None
  | param :: rest =>
      if String.eqb (Name param) STRATEGY_PARAM_NAME
         && negb (knownStrategy (Value param))
      then Some (Value param)
      else improperParam rest
  end.

(** The outer loop over the stanzas. *)
Fixpoint improperService (stanzas : list Stanza) : option string :=
  match stanzas with
  | [] => None
  | stanza :: rest =>
      match improperParam (Params stanza) with
      | Some v => Some v
      | None => improperService rest
      end
  end.

(** [read] is what [splunk.ReadModInputConfig(input.reader)] returned. *)
Definition ValidateScheme (read : Res ModInputConfig) : M (bool * string) :=
  match read with
  | Err e => ret (false, "Unable to parse configuration." +:+ e)
  | Val config =>
      match improperService (Stanzas config) with
      | Some v => ret (false, "Improper service '" +:+ v +:+ "' name indicated.")
      | None => ret (true, "")
      end
  end.

(** *** getStrategy *)

(** The two loops of [getStrategy]: the last [FitnessService]
    parameter wins. *)
Definition strategyParam (stanzas : list Stanza) : string :=
  fold_left
    (fun strategy stanza =>
       fold_left
         (fun strategy param =>
            if String.eqb (Name param) STRATEGY_PARAM_NAME
            then Value param else strategy)
         (Params stanza) strategy)
    stanzas "".

Definition getStrategy (input : ModInputConfig) : M string :=
  let strategy := strategyParam (Stanzas input) in
  if String.eqb strategy ""
  then log_Fatal "No strategy passed to Fitness Input"
  else ret strategy.

(** *** getReaderStrategy *)

Definition getReaderStrategy (input : ModInputConfig)
    (startTime endTime : Time) : M (Res FitnessReader) :=
  strategy <- getStrategy input ;;
  if String.eqb strategy STRATEGY_GOOGLE
  then ret (Val (GoogleFitnessReader startTime endTime))
  else ret (Err ("Unsupported reader requested: " +:+ strategy)).

(** *** getAppCredentials *)

(** The loop over [entry.Contents.Keys] of a matching entry. *)
Definition appKeys (keys : list Key) (acc : string * string) : string * string :=
  fold_left
    (fun '(clientId, clientSecret) key =>
       let clientSecret :=
         if String.eqb (Key_Name key) "clear_password"
         then Key_Value key else clientSecret in
       let clientId :=
         if String.eqb (Key_Name key) "username"
         then Key_Value key else clientId in
       (clientId, clientSecret))
    keys acc.

(** The loop over [passwords.Entries]. *)
Definition appEntries (entries : list Entry) : string * string :=
  fold_left
    (fun acc entry =>
       if Contains (ID entry) "apps.googleusercontent.com"
       then appKeys (Contents_Keys entry) acc
       else acc)
    entries ("", "").

(** Returns [(clientId, clientSecret)]. *)
Definition getAppCredentials (h : Host) (input : ModInputConfig) : M (string * string) :=
  passwords <- splunk_GetEntities h (SessionKey input) ;;
  match passwords with
  | Err err =>
      log_Fatal ("Unable to retrieve password entries for TA-GoogleFitness: "
                 +:+ err +:+ nl)
  | Val entries => ret (appEntries entries)
  end.

(** *** getTokens *)

(** The loop over [entry.Contents.Keys]: [(isForStrategy, tokenJSON)]. *)
Fixpoint scanKeys (input : ModInputConfig) (keys : list Key)
    (isForStrategy : bool) (tokenJSON : string) : M (bool * string) :=
  match keys with
  | [] => ret (isForStrategy, tokenJSON)
  | key :: rest =>
      if String.eqb (Key_Name key) "clear_password"
      then scanKeys input rest isForStrategy (Key_Value key)
      else if String.eqb (Key_Name key) "realm"
      then strategy <- getStrategy input ;;
           if String.eqb (Key_Value key) strategy
           then scanKeys input rest true tokenJSON
           else scanKeys input rest isForStrategy tokenJSON
      else scanKeys input rest isForStrategy tokenJSON
  end.

(** The loop over [entities.Entries], appending to [result]. *)
Fixpoint scanEntries (input : ModInputConfig) (entries : list Entry)
    (result : list Token) : M (list Token) :=
  match entries with
  | [] => ret result
  | entry :: rest =>
      scanned <- scanKeys input (Contents_Keys entry) false "" ;;
      let '(isForStrategy, tokenJSON) := scanned in
      if isForStrategy
      then match json_Decode tokenJSON with
           | Err err =>
               log_Fatal ("Failed to decode passwords from storage/passwords: "
                          +:+ err +:+ nl +:+ " JSON to Decode: " +:+ tokenJSON +:+ nl)
           | Val temp =>
               scanEntries input rest
                 (result ++ [newToken (RefreshToken temp) (AccessToken temp)
                                      (Expires temp) (TokenType temp)])
           end
      else scanEntries input rest result
  end.

Definition getTokens (h : Host) (input : ModInputConfig) : M (list Token) :=
  entities <- splunk_GetEntities h (SessionKey input) ;;
  match entities with
  | Err err =>
      log_Fatal ("Unable to get user tokens from Splunk: " +:+ err +:+ nl)
  | Val entries => scanEntries input entries []
  end.

(** *** Checkpoints *)

(** [None]: an index expression was out of range (the call panics). *)
Definition getCheckPointPath (input : ModInputConfig) : option string :=
  match Stanzas input !! 0%nat with
  | None => None
  | Some stanza =>
      let fileName := Split (StanzaName stanza) "://" in
      match fileName !! 1%nat with
      | None => None
      | Some elem => Some (path_Join (CheckpointDir input) elem)
      end
  end.

Definition checkPointPath (input : ModInputConfig) : M string :=
  match getCheckPointPath input with
  | Some path => ret path
  | None => panic "runtime error: index out of range"
  end.

Definition writeCheckPoint (h : Host) (input : ModInputConfig) (t : Time) : M unit :=
  match GobEncode t with
  | Err err =>
      log_Fatal ("Unable to encode checkpoint time: " +:+ err +:+ nl)
  | Val g =>
      path <- checkPointPath input ;;
      err <- ioutil_WriteFile h path g ;;
      match err with
      | Some err =>
          log_Fatal ("Error writing checkpoint file: " +:+ err +:+ nl)
      | None => ret tt
      end
  end.

(** Returns the pair [(time.Time, error)]; [None] is a nil error. *)
Definition readCheckPoint (h : Host) (input : ModInputConfig) : M (Time * option error) :=
  path <- checkPointPath input ;;
  read <- ioutil_ReadFile path ;;
  match read with
  | Err err =>
      log_Printf ("Unable to read checkpoint file:" +:+ err +:+ nl) ;;;
      now <- time_Now h ;;
      ret (now, Some err)
  | Val b =>
      match GobDecode b with
      | Err err =>
          log_Printf ("Unable to decode checkpoint file: " +:+ err +:+ nl) ;;;
          now <- time_Now h ;;
          ret (Add now (-2 * Hour), Some err)
      | Val t => ret (t, None)
      end
  end.

(** Returns [(startTime, endTime)]. *)
Definition getTimes (h : Host) (input : ModInputConfig) : M (Time * Time) :=
  read <- readCheckPoint h input ;;
  let '(startTime, err) := read in
  startTime <- match err with
               | Some _ => time_Now h
               | None => ret startTime
               end ;;
  endTime <- time_Now h ;;
  ret (startTime, endTime).

(** *** StreamEvents *)

(** [config] and [err] are what [splunk.ReadModInputConfig] returned;
    [config] becomes [input.ModInputConfig]. *)
Definition StreamEvents (h : Host) (config : ModInputConfig) (err : option error) : M unit :=
  match err with
  | Some _ => log_Printf "Unable to read Modular Input config from reader."
  | None => ret tt
  end ;;;
  let input := config in
  tokens <- getTokens h input ;;
  forEach tokens (fun token =>
    creds <- getAppCredentials h input ;;
    let '(clientId, clientSecret) := creds in
    emit (EvGetClient token clientId clientSecret) ;;;
    let client := getClient token clientId clientSecret in
    times <- getTimes h input ;;
    let '(startTime, endTime) := times in
    fitnessReader <- getReaderStrategy input startTime endTime ;;
    match fitnessReader with
    | Err err => log_Fatal err
    | Val fitnessReader =>
        t <- getData fitnessReader client ;;
        writeCheckPoint h input t
    end).

End FitnessInput.

(** ** Vocabulary of the specification *)

Section Vocabulary.

Context `{RT : Runtime}.

(** The attribute is a [realm] equal to [strategy]. *)
Definition realmKey (strategy : string) (key : Key) : bool :=
  String.eqb (Key_Name key) "realm" && String.eqb (Key_Value key) strategy.

(** The entry carries a [realm] attribute equal to [strategy]. *)
Definition hasRealm (strategy : string) (entry : Entry) : bool :=
  existsb (realmKey strategy) (Contents_Keys entry).

(** The value of the last attribute called [name], [default] without one. *)
Definition lastValue (name : string) (keys : list Key) (default : string) : string :=
  match List.find (fun key => String.eqb (Key_Name key) name) (rev keys) with
  | Some key => Key_Value key
  | None => default
  end.

(** The credential stored in an entry: its [clear_password] attribute,
    decoded as a token payload. *)
Definition entryToken (entry : Entry) : Res Token :=
  match json_Decode (lastValue "clear_password" (Contents_Keys entry) "") with
  | Val temp =>
      Val (newToken (RefreshToken temp) (AccessToken temp)
                    (Expires temp) (TokenType temp))
  | Err err => Err err
  end.

(** The tokens [toks] are those stored in the entries [es], one for
    one and in order. *)
Definition tokensOf (es : list Entry) (toks : list Token) : Prop :=
  Forall2 (fun entry token => entryToken entry = Val token) es toks.

(** The attributes of the entries whose identifier carries the
    application-domain marker, in store order. *)
Definition appMarked (entries : list Entry) : list Key :=
  flat_map Contents_Keys
    (List.filter (fun entry => Contains (ID entry) "apps.googleusercontent.com")
                 entries).

(** The clients handed to [getData], in call order. *)
Definition getData_clients (evs : list Event) : list Client :=
  flat_map (fun ev => match ev with
                      | EvGetData client _ _ => [client]
                      | _ => []
                      end) evs.

(** The clients built by [getClient], in call order. *)
Definition built_clients (evs : list Event) : list Client :=
  flat_map (fun ev => match ev with
                      | EvGetClient token clientId clientSecret =>
                          [getClient token clientId clientSecret]
                      | _ => []
                      end) evs.

(** The store was queried. *)
Definition queried_store (evs : list Event) : bool :=
  existsb (fun ev => match ev with EvGetEntities _ => true | _ => false end) evs.

(** The checkpoint file was read or written (or a write attempted). *)
Definition touched_checkpoint (evs : list Event) : bool :=
  existsb (fun ev => match ev with
                     | EvReadFile _ | EvWriteFile _ _ | EvWriteFailed _ => true
                     | _ => false
                     end) evs.

(** The state in which [StreamEvents] starts resolving tokens: after
    the line logged for a configuration that failed to parse. *)
Definition configRead (err : option error) (s : State) : State :=
  match err with
  | Some _ =>
      {| files := files s; ticks := ticks s;
         trace := trace s ++ [EvLog "Unable to read Modular Input config from reader."] |}
  | None => s
  end.

(** The body of the loop of [StreamEvents] up to the value passed to
    [writeCheckPoint]: client, window, strategy and fetch. *)
Definition fetch (h : Host) (input : ModInputConfig) (token : Token) : M Time :=
  creds <- getAppCredentials h input ;;
  let '(clientId, clientSecret) := creds in
  emit (EvGetClient token clientId clientSecret) ;;;
  let client := getClient token clientId clientSecret in
  times <- getTimes h input ;;
  let '(startTime, endTime) := times in
  fitnessReader <- getReaderStrategy input startTime endTime ;;
  match fitnessReader with
  | Err err => log_Fatal err
  | Val fitnessReader => getData fitnessReader client
  end.

(** The whole body of the loop. *)
Definition processToken (h : Host) (input : ModInputConfig) (token : Token) : M unit :=
  t <- fetch h input token ;;
  writeCheckPoint h input t.

(** The client the loop builds for [token] from the app credentials
    found in [entries]. *)
Definition clientFor (entries : list Entry) (token : Token) : Client :=
  getClient token (appEntries entries).1 (appEntries entries).2.

(** The state in which the loop body calls [getTimes]: the store was
    queried for the app credentials and the client built. *)
Definition clientBuilt (input : ModInputConfig) (entries : list Entry)
    (token : Token) (s : State) : State :=
  {| files := files s; ticks := ticks s;
     trace := (trace s ++ [EvGetEntities (SessionKey input)])
              ++ [EvGetClient token (appEntries entries).1 (appEntries entries).2] |}.

(** A computation only ever appends to the trace. *)
Definition tracing {A} (m : M A) : Prop :=
  forall s, exists evs, trace (snd (m s)) = trace s ++ evs.

End Vocabulary.

(** ** A concrete runtime

    Package [time] of the Go standard library is not part of the
    repository; this is a model of the binary form a [time.Time] gives
    itself in [MarshalBinary], which [GobEncode] returns: a version
    byte, the seconds since year 1 as a big-endian [int64], the
    nanoseconds as a big-endian [int32], and the zone offset in minutes
    as a big-endian [int16] ([-1] for UTC).  The instant is kept in UTC.
    It serves to run the engine; the properties of the engine are
    stated for any codec. *)

Module TimeWire.

Definition timeBinaryVersion : Z := 1.

(** Seconds from January 1, year 1 to January 1, 1970. *)
Definition unixToInternal : Z :=
  (1969 * 365 + 1969 / 4 - 1969 / 100 + 1969 / 400) * 86400.

Definition sec (t : Time) : Z := t / 1000000000 + unixToInternal.
Definition nsec (t : Time) : Z := t mod 1000000000.

(** The [n] low bytes of [x], most significant first:
    [byte(x >> 8(n-1)), ..., byte(x >> 8), byte(x)]. *)
Fixpoint be_bytes (n : nat) (x : Z) : list Z :=
  match n with
  | O => []
  | S n' => be_bytes n' (Z.shiftr x 8) ++ [Z.land x 255]
  end.

(** [b0<<8(n-1) | ... | b(n-2)<<8 | b(n-1)] *)
Definition be_uint (bs : list Z) : Z :=
  fold_left (fun acc b => Z.lor (Z.shiftl acc 8) b) bs 0.

(** Reading an unsigned [w]-bit pattern as a signed integer. *)
Definition signed (w : Z) (u : Z) : Z :=
  (u + 2 ^ (w - 1)) mod 2 ^ w - 2 ^ (w - 1).

Definition MarshalBinary (t : Time) : Res bytes :=
  let offsetMin := -1 in
  Val (timeBinaryVersion
         :: be_bytes 8 (sec t) ++ be_bytes 4 (nsec t) ++ be_bytes 2 offsetMin).

Definition UnmarshalBinary (data : bytes) : Res Time :=
  match data with
  | [] => Err "Time.UnmarshalBinary: no data"
  | version :: buf =>
      if negb (version =? timeBinaryVersion)
      then Err "Time.UnmarshalBinary: unsupported version"
      else if negb (length data =? 15)%nat
      then Err "Time.UnmarshalBinary: invalid length"
      else
        let sec := signed 64 (be_uint (take 8 buf)) in
        let nsec := signed 32 (be_uint (take 4 (drop 8 buf))) in
        Val ((sec - unixToInternal) * 1000000000 + nsec)
  end.

End TimeWire.

(** A runtime to run the engine on concrete inputs.  Tokens and clients
    are the tuples of their constructor arguments, [getData] answers the
    end of its window, a payload is four fields separated by [|], and
    [path.Join] is taken on clean operands. *)
Definition sampleRuntime : Runtime := {|
  Token := string * string * string * string;
  Client := (string * string * string * string) * string * string;
  newToken := fun refreshToken accessToken expiry tokenType =>
    (refreshToken, accessToken, expiry, tokenType);
  getClient := fun token clientId clientSecret => (token, clientId, clientSecret);
  GoogleFitnessReader_getData := fun _ endTime _ => endTime;
  json_Decode := fun payload =>
    match Split payload "|" with
    | [a; r; ty; e] =>
        Val {| AccessToken := a; RefreshToken := r; TokenType := ty; Expires := e |}
    | _ => Err "unexpected end of JSON input"
    end;
  GobEncode := TimeWire.MarshalBinary;
  GobDecode := TimeWire.UnmarshalBinary;
  path_Join := fun dir elem => dir +:+ "/" +:+ elem
|}.

Definition emptyState `{RT : Runtime} : State :=
  {| files := ∅; ticks := 0; trace := [] |}.

(** Sample inputs: one stanza [fitness://google] polling [service],
    checkpoints under [/ckpt]; store entries with a realm and a payload. *)
Definition sampleConfig (service : string) : ModInputConfig :=
  {| SessionKey := "session";
     CheckpointDir := "/ckpt";
     Stanzas := [ {| StanzaName := "fitness://google";
                     Params := [ {| Name := ENFORCE_CERT_VALIDATION; Value := "true" |};
                                 {| Name := STRATEGY_PARAM_NAME; Value := service |} ] |} ] |}.

Definition sampleEntry (realm payload : string) : Entry :=
  {| ID := "https://127.0.0.1:8089/servicesNS/nobody/TA-GoogleFitness/storage/passwords/"
           +:+ realm +:+ "%3Auser%3A";
     Contents_Keys := [ {| Key_Name := "clear_password"; Key_Value := payload |};
                        {| Key_Name := "realm"; Key_Value := realm |};
                        {| Key_Name := "username"; Key_Value := "user" |} ] |}.

(** The entry holding the application's client id and secret. *)
Definition sampleAppEntry : Entry :=
  {| ID := "https://127.0.0.1:8089/servicesNS/nobody/TA-GoogleFitness/storage/passwords/"
           +:+ "%3A42.apps.googleusercontent.com%3A";
     Contents_Keys := [ {| Key_Name := "clear_password"; Key_Value := "app-secret" |};
                        {| Key_Name := "username";
                           Key_Value := "42.apps.googleusercontent.com" |} ] |}.

(** A host whose clock starts at 2016-06-21 15:00:00 UTC and advances
    one millisecond per reading, and whose writes succeed. *)
Definition sampleHost (entries : list Entry) : Host :=
  {| passwords := Val entries;
     write_error := fun _ => None;
     clock := fun n => 1466521200000000000 + 1000000 * Z.of_nat n |}.

(** The same host with a checkpoint directory that refuses writes. *)
Definition readOnlyHost (entries : list Entry) : Host :=
  {| passwords := Val entries;
     write_error := fun path => Some ("open " +:+ path +:+ ": permission denied");
     clock := clock (sampleHost entries) |}.

(** Two users' stored credentials and the tokens they decode to. *)
Definition alice (realm : string) : Entry :=
  sampleEntry realm "access-a|refresh-a|Bearer|2016-06-21".

Definition bob (realm : string) : Entry :=
  sampleEntry realm "access-b|refresh-b|Bearer|2016-06-22".

Definition tokenA : @Token sampleRuntime :=
  ("refresh-a", "access-a", "2016-06-21", "Bearer").

Definition tokenB : @Token sampleRuntime :=
  ("refresh-b", "access-b", "2016-06-22", "Bearer").

(** A state whose checkpoint file holds [data]. *)
Definition checkpointed `{RT : Runtime} (data : bytes) : State :=
  {| files := {[ "/ckpt/google" := data ]}; ticks := 0; trace := [] |}.

(** ** Vocabulary of the further properties *)

Section MoreVocabulary.

Context `{RT : Runtime}.

(** All parameters of all stanzas, in configuration order. *)
Definition allParams (stanzas : list Stanza) : list Param :=
  flat_map Params stanzas.

(** The parameter selects the service. *)
Definition isStrategyParam (param : Param) : bool :=
  String.eqb (Name param) STRATEGY_PARAM_NAME.

(** The parameter selects a service that is none of the known ones. *)
Definition improperChoice (param : Param) : bool :=
  isStrategyParam param && negb (knownStrategy (Value param)).

(** The entry has an attribute called [realm], whatever its value. *)
Definition namesRealm (entry : Entry) : bool :=
  existsb (fun key => String.eqb (Key_Name key) "realm") (Contents_Keys entry).

(** The state after one query of the store. *)
Definition storeQueried (input : ModInputConfig) (s : State) : State :=
  {| files := files s; ticks := ticks s;
     trace := trace s ++ [EvGetEntities (SessionKey input)] |}.

(** The payload [getTokens] decodes for an entry. *)
Definition payload (entry : Entry) : string :=
  lastValue "clear_password" (Contents_Keys entry) "".

(** How often the store was queried. *)
Definition store_queries (evs : list Event) : nat :=
  length (flat_map (fun ev => match ev with
                              | EvGetEntities _ => [tt]
                              | _ => []
                              end) evs).

(** How often the checkpoint file was written. *)
Definition checkpoint_writes (evs : list Event) : nat :=
  length (flat_map (fun ev => match ev with
                              | EvWriteFile _ _ => [tt]
                              | _ => []
                              end) evs).

(** The event is a file read or a log line. *)
Definition readOrLog (ev : Event) : Prop :=
  match ev with
  | EvReadFile _ | EvLog _ => True
  | _ => False
  end.

(** The computation leaves the file at [q] as it was. *)
Definition keeps (q : string) {A} (m : M A) : Prop :=
  forall s, files (snd (m s)) !! q = files s !! q.

(** The event is a write of the checkpoint file, done or refused. *)
Definition isWrite (ev : Event) : bool :=
  match ev with
  | EvWriteFile _ _ | EvWriteFailed _ => true
  | _ => false
  end.

(** The event is a call of [getData]. *)
Definition isFetch (ev : Event) : bool :=
  match ev with
  | EvGetData _ _ _ => true
  | _ => false
  end.

(** Every write in [evs] comes directly after a fetch; [afterFetch]
    tells whether the event before [evs] was one. *)
Fixpoint writesFollowFetch (afterFetch : bool) (evs : list Event) : bool :=
  match evs with
  | [] => true
  | ev :: rest =>
      (if isWrite ev then afterFetch else true)
      && writesFollowFetch (isFetch ev) rest
  end.

(** Whether the last event is a fetch. *)
Definition lastFetch (before : bool) (evs : list Event) : bool :=
  fold_left (fun _ ev => isFetch ev) evs before.

(** The events a computation adds keep every write directly after a
    fetch and do not start with a write. *)
Definition orderly {A} (m : M A) : Prop :=
  forall s, exists evs,
    trace (snd (m s)) = trace s ++ evs
    /\ forall b, writesFollowFetch b evs = true.

(** Moreover, when the computation returns, the last event it added is
    a fetch. *)
Definition endsFetched {A} (m : M A) : Prop :=
  forall s, exists evs,
    trace (snd (m s)) = trace s ++ evs
    /\ (forall b, writesFollowFetch b evs = true)
    /\ forall a, fst (m s) = Ok a -> lastFetch false evs = true.

(** The state [s] with its trace replaced. *)
Definition retrace (T : list Event) (s : State) : State :=
  {| files := files s; ticks := ticks s; trace := T |}.

(** The computation never looks at the trace: on any trace it gives
    the same outcome, files and clock, and appends the same events. *)
Definition oblivious {A} (m : M A) : Prop :=
  forall s, exists o s' evs,
    forall T, m (retrace T s) = (o, retrace (T ++ evs) s').

End MoreVocabulary.

(** More sample inputs: a configuration without a [FitnessService]
    parameter, *)
Definition noServiceConfig : ModInputConfig :=
  {| SessionKey := "session";
     CheckpointDir := "/ckpt";
     Stanzas := [ {| StanzaName := "fitness://google";
                     Params := [ {| Name := ENFORCE_CERT_VALIDATION; Value := "true" |} ] |} ] |}.

(** one whose stanza name has no [://], *)
Definition bareNameConfig : ModInputConfig :=
  {| SessionKey := "session";
     CheckpointDir := "/ckpt";
     Stanzas := [ {| StanzaName := "google";
                     Params := [ {| Name := STRATEGY_PARAM_NAME;
                                    Value := STRATEGY_GOOGLE |} ] |} ] |}.

(** and a host whose store cannot be reached. *)
Definition offlineHost : Host :=
  {| passwords := Err "connection refused";
     write_error := fun _ => None;
     clock := clock (sampleHost []) |}.

(** * Properties *)

Example Split_stanza :
  Split "fitness://google" "://" = ["fitness"; "google"].
Proof. reflexivity. Qed.

Example Split_twice :
  Split "a://b://c" "://" = ["a"; "b"; "c"].
Proof. reflexivity. Qed.

Example Split_none :
  Split "google" "://" = ["google"].
Proof. reflexivity. Qed.

Section StringFacts.

Lemma append_String c s t : String c s +:+ t = String c (s +:+ t).
Proof. reflexivity. Qed.

Lemma length_append s t :
  String.length (s +:+ t) = (String.length s + String.length t)%nat.
Proof. induction s as [|c s IH]; [done|]. rewrite append_String. cbn. by rewrite IH. Qed.

Lemma slice_from_length n s :
  String.length (slice_from n s) = (String.length s - n)%nat.
Proof.
  revert s. induction n as [|n IH]; intros s; [cbn; lia|].
  destruct s as [|c s]; [done|]. cbn. apply IH.
Qed.

Lemma HasPrefix_split s p :
  HasPrefix s p = true -> s = p +:+ slice_from (String.length p) s.
Proof.
  revert s. induction p as [|a p IH]; intros s H; [by destruct s|].
  destruct s as [|b s]; [done|]. cbn in H.
  destruct (Ascii.eqb a b) eqn:E; [|done].
  apply Ascii.eqb_eq in E as ->. rewrite append_String. cbn.
  f_equal. by apply IH.
Qed.

Lemma HasPrefix_slice_to n s p :
  HasPrefix (slice_to n s) p = true -> HasPrefix s p = true.
Proof.
  revert n s. induction p as [|a p IH]; intros n s H; [by destruct s|].
  destruct n as [|n], s as [|b s]; try done. cbn in *.
  destruct (Ascii.eqb a b); [|done]. by eapply IH.
Qed.

Lemma Index_unfold s sep :
  Index s sep =
    if HasPrefix s sep then Some 0%nat
    else match s with
         | EmptyString => None
         | String _ s' => S <$> Index s' sep
         end.
Proof. by destruct s. Qed.

(** The first occurrence cuts the string in three. *)
Lemma Index_Some_split s sep m :
  Index s sep = Some m ->
  s = slice_to m s +:+ sep +:+ slice_from (m + String.length sep) s
  /\ String.length (slice_to m s) = m.
Proof.
  revert m. induction s as [|c s IH]; intros m; rewrite Index_unfold.
  - destruct (HasPrefix "" sep) eqn:E; [|done]. intros [= <-].
    split; [|done]. by apply HasPrefix_split.
  - destruct (HasPrefix (String c s) sep) eqn:E.
    + intros [= <-]. split; [|done]. by apply HasPrefix_split.
    + destruct (Index s sep) as [k|] eqn:Ek; [|done]. intros [= <-].
      destruct (IH k eq_refl) as [Hs Hl]. cbn [slice_to slice_from Nat.add].
      rewrite append_String. split; [by rewrite <- Hs|]. cbn. by rewrite Hl.
Qed.

(** Nothing before the first occurrence holds the separator. *)
Lemma Index_Some_before s sep m :
  sep <> "" -> Index s sep = Some m -> Index (slice_to m s) sep = None.
Proof.
  intros Hsep. revert m. induction s as [|c s IH]; intros m; rewrite Index_unfold.
  - destruct (HasPrefix "" sep) eqn:E; [|done]. by destruct sep.
  - destruct (HasPrefix (String c s) sep) eqn:E.
    + intros [= <-]. by destruct sep.
    + destruct (Index s sep) as [k|] eqn:Ek; [|done]. intros [= <-].
      cbn [slice_to]. rewrite Index_unfold, (IH k eq_refl).
      destruct (HasPrefix (String c (slice_to k s)) sep) eqn:E'; [|done].
      apply (HasPrefix_slice_to (S k) (String c s)) in E'. congruence.
Qed.

Lemma Index_Some_length s sep m :
  Index s sep = Some m -> (m + String.length sep <= String.length s)%nat.
Proof.
  intros H. destruct (Index_Some_split _ _ _ H) as [Hs Hl].
  apply (f_equal String.length) in Hs.
  rewrite !length_append, Hl in Hs. lia.
Qed.

(** The element at index 1 of a split: what follows the first
    separator, up to the next one. *)
Lemma Split_second s sep m :
  sep <> "" -> Index s sep = Some m ->
  Split s sep !! 1%nat =
    Some (let rest := slice_from (m + String.length sep) s in
          match Index rest sep with
          | Some k => slice_to k rest
          | None => rest
          end).
Proof.
  intros Hsep H. unfold Split.
  pose proof (Index_Some_length _ _ _ H) as Hlen.
  destruct (String.length s) as [|r] eqn:El.
  { destruct sep; [done|]. cbn in Hlen. lia. }
  cbn [genSplit]. rewrite H. cbn [lookup list_lookup].
  set (rest := slice_from _ s).
  destruct (Index rest sep) as [k|] eqn:Ek.
  - destruct r as [|r]; cbn [genSplit]; [|by rewrite Ek].
    exfalso. apply Index_Some_length in Ek.
    unfold rest in Ek. rewrite slice_from_length in Ek.
    destruct sep; [done|]. cbn in *. lia.
  - destruct r as [|r]; cbn [genSplit]; [done|by rewrite Ek].
Qed.

Lemma Split_no_sep s sep : Index s sep = None -> Split s sep = [s].
Proof.
  intros H. unfold Split. destruct (String.length s); cbn; [done|by rewrite H].
Qed.

End StringFacts.

Section CheckPointPath.
Context `{RT : Runtime}.

Lemma append_empty_r s : s +:+ "" = s.
Proof. induction s as [|c s IH]; [done|]. rewrite append_String. by rewrite IH. Qed.

Lemma sep_nonempty : "://" <> "".
Proof. done. Qed.

(** C10.  [getCheckPointPath] is defined exactly when there is a first
    stanza whose name contains [://].  Then the name reads
    [pre://seg tail], where [pre] ends at the first [://], [seg] holds
    no [://] and [tail] is empty or starts at the next [://], and the
    result is [path.Join(CheckpointDir, seg)].  With no stanza, or a
    first stanza name without [://], an index is out of range. *)
Theorem getCheckPointPath_defined (input : ModInputConfig) :
  match Stanzas input with
  | [] => getCheckPointPath input = None
  | stanza :: _ =>
      if Contains (StanzaName stanza) "://"
      then exists pre seg tail,
          StanzaName stanza = pre +:+ "://" +:+ seg +:+ tail
          /\ Index (StanzaName stanza) "://" = Some (String.length pre)
          /\ Contains seg "://" = false
          /\ (tail = "" \/ Index (seg +:+ tail) "://" = Some (String.length seg))
          /\ getCheckPointPath input = Some (path_Join (CheckpointDir input) seg)
      else getCheckPointPath input = None
  end.
Proof.
  unfold getCheckPointPath, Contains.
  destruct (Stanzas input) as [|stanza rest]; [done|]. cbn [lookup list_lookup].
  destruct (Index (StanzaName stanza) "://") as [m|] eqn:Em.
  - rewrite (Split_second _ _ _ sep_nonempty Em). cbn zeta.
    destruct (Index_Some_split _ _ _ Em) as [Hs Hl].
    set (after := slice_from _ _) in *.
    destruct (Index after "://") as [k|] eqn:Ek.
    + destruct (Index_Some_split _ _ _ Ek) as [Hs' Hl'].
      exists (slice_to m (StanzaName stanza)), (slice_to k after),
        ("://" +:+ slice_from (k + String.length "://") after).
      rewrite <- Hs', Hl, Hl', (Index_Some_before _ _ _ sep_nonempty Ek).
      repeat split; auto.
    + exists (slice_to m (StanzaName stanza)), after, "".
      rewrite append_empty_r, Hl, Ek. repeat split; auto.
  - by rewrite (Split_no_sep _ _ Em).
Qed.
End CheckPointPath.

Section Credentials.
Context `{RT : Runtime}.

Lemma find_snoc {A} (f : A -> bool) (l : list A) (x : A) :
  List.find f (l ++ [x]) =
    match List.find f l with
    | Some y => Some y
    | None => if f x then Some x else None
    end.
Proof.
  induction l as [|a l IH]; cbn; [done|]. by destruct (f a).
Qed.

Lemma lastValue_cons name key keys default :
  lastValue name (key :: keys) default =
    lastValue name keys
      (if String.eqb (Key_Name key) name then Key_Value key else default).
Proof.
  unfold lastValue. cbn [rev]. rewrite find_snoc.
  destruct (List.find _ (rev keys)); [done|].
  by destruct (String.eqb (Key_Name key) name).
Qed.

Lemma lastValue_app name keys1 keys2 default :
  lastValue name (keys1 ++ keys2) default =
    lastValue name keys2 (lastValue name keys1 default).
Proof.
  revert default. induction keys1 as [|key keys1 IH]; intros default; [done|].
  cbn [app]. by rewrite !lastValue_cons, IH.
Qed.

(** *** getStrategy *)

Lemma getStrategy_run input s :
  strategyParam (Stanzas input) <> "" ->
  getStrategy input s = (Ok (strategyParam (Stanzas input)), s).
Proof.
  intros H. unfold getStrategy.
  destruct (String.eqb_spec (strategyParam (Stanzas input)) ""); done.
Qed.

Lemma getStrategy_inv input s strategy s' :
  getStrategy input s = (Ok strategy, s') ->
  s' = s /\ strategy = strategyParam (Stanzas input).
Proof.
  unfold getStrategy.
  destruct (String.eqb (strategyParam (Stanzas input)) ""); [done|].
  by intros [= <- <-].
Qed.

(** *** The key loop of getTokens *)

Lemma scanKeys_inv input keys b j s r s' :
  scanKeys input keys b j s = (Ok r, s') ->
  s' = s
  /\ r = (b || existsb (realmKey (strategyParam (Stanzas input))) keys,
          lastValue "clear_password" keys j).
Proof.
  revert b j. induction keys as [|key keys IH]; intros b j; cbn [scanKeys existsb].
  - intros [= <- <-]. by rewrite orb_false_r.
  - rewrite lastValue_cons. unfold realmKey at 1.
    destruct (String.eqb_spec (Key_Name key) "clear_password") as [->|Hcp].
    { intros H. by apply IH in H. }
    destruct (String.eqb (Key_Name key) "realm").
    + unfold bind. destruct (getStrategy input s) as [[strategy| |] s1] eqn:Eg; try done.
      apply getStrategy_inv in Eg as [-> ->]. cbn [andb].
      destruct (String.eqb (Key_Value key) _).
      * intros H. apply IH in H as [-> ->]. by rewrite orb_true_r.
      * intros H. by apply IH in H.
    + intros H. by apply IH in H.
Qed.

Lemma scanKeys_run input keys b j s :
  strategyParam (Stanzas input) <> "" ->
  scanKeys input keys b j s =
    (Ok (b || existsb (realmKey (strategyParam (Stanzas input))) keys,
         lastValue "clear_password" keys j), s).
Proof.
  intros Hs. revert b j. induction keys as [|key keys IH]; intros b j;
    cbn [scanKeys existsb].
  - by rewrite orb_false_r.
  - rewrite lastValue_cons. unfold realmKey at 1.
    destruct (String.eqb_spec (Key_Name key) "clear_password") as [->|Hcp].
    { by rewrite IH. }
    destruct (String.eqb (Key_Name key) "realm").
    + unfold bind. rewrite (getStrategy_run _ _ Hs). cbn [andb].
      destruct (String.eqb (Key_Value key) _); rewrite IH; [|done].
      by rewrite orb_true_r.
    + by rewrite IH.
Qed.

(** *** The entry loop of getTokens *)

Lemma scanEntries_inv input entries result s toks s' :
  scanEntries input entries result s = (Ok toks, s') ->
  s' = s
  /\ exists new,
      toks = result ++ new
      /\ tokensOf (List.filter (hasRealm (strategyParam (Stanzas input))) entries) new.
Proof.
  revert result. induction entries as [|entry entries IH]; intros result;
    cbn [scanEntries List.filter].
  - intros [= <- <-]. split; [done|]. exists []. rewrite app_nil_r. by split; [|constructor].
  - unfold bind at 1.
    destruct (scanKeys _ _ _ _ s) as [[[isFor json]| |] s1] eqn:Ek; try done.
    apply scanKeys_inv in Ek as [-> [= -> ->]]. cbn [orb].
    change (existsb _ (Contents_Keys entry))
      with (hasRealm (strategyParam (Stanzas input)) entry).
    destruct (hasRealm _ entry) eqn:Eh.
    + destruct (json_Decode _) as [temp|err] eqn:Ed; [|done].
      intros H. apply IH in H as [-> (new & -> & Hnew)]. split; [done|].
      eexists (_ :: new). rewrite <- app_assoc. split; [done|].
      constructor; [|done]. unfold entryToken. by rewrite Ed.
    + apply IH.
Qed.

Lemma scanEntries_run input entries result s toks :
  strategyParam (Stanzas input) <> "" ->
  tokensOf (List.filter (hasRealm (strategyParam (Stanzas input))) entries) toks ->
  scanEntries input entries result s = (Ok (result ++ toks), s).
Proof.
  intros Hs. revert result toks.
  induction entries as [|entry entries IH]; intros result toks;
    cbn [scanEntries List.filter].
  - intros H. inversion H. by rewrite app_nil_r.
  - unfold bind at 1. rewrite (scanKeys_run _ _ _ _ _ Hs). cbn [orb].
    change (existsb _ (Contents_Keys entry))
      with (hasRealm (strategyParam (Stanzas input)) entry).
    destruct (hasRealm _ entry) eqn:Eh; [|apply IH].
    intros H. inversion H as [|? tok ? toks' Htok Hrest]; subst.
    unfold entryToken in Htok.
    destruct (json_Decode _) as [temp|err]; [|done].
    injection Htok as <-. rewrite (IH _ _ Hrest). by rewrite <- app_assoc.
Qed.

Lemma getTokens_run h input entries toks s :
  passwords h = Val entries ->
  strategyParam (Stanzas input) <> "" ->
  tokensOf (List.filter (hasRealm (strategyParam (Stanzas input))) entries) toks ->
  getTokens h input s =
    (Ok toks, {| files := files s; ticks := ticks s;
                 trace := trace s ++ [EvGetEntities (SessionKey input)] |}).
Proof.
  intros Hp Hs Ht. unfold getTokens, bind, splunk_GetEntities. rewrite Hp.
  by rewrite (scanEntries_run _ _ _ _ _ Hs Ht).
Qed.

Lemma getTokens_inv h input toks s s' :
  getTokens h input s = (Ok toks, s') ->
  s' = {| files := files s; ticks := ticks s;
          trace := trace s ++ [EvGetEntities (SessionKey input)] |}
  /\ exists entries,
      passwords h = Val entries
      /\ tokensOf (List.filter (hasRealm (strategyParam (Stanzas input))) entries) toks.
Proof.
  unfold getTokens, bind, splunk_GetEntities.
  destruct (passwords h) as [entries|err]; [|done].
  intros H. apply scanEntries_inv in H as [-> (new & -> & Hnew)].
  split; [done|]. by exists entries.
Qed.

(** C4.  Whenever [getTokens] returns, the store answered with some
    entries and the tokens returned are, one for one and in order,
    the decoded payloads of exactly those entries that carry a
    [realm] attribute equal to the configured strategy: an entry
    without such an attribute contributes no token. *)
Theorem getTokens_only_matching_realm h input toks s s' :
  getTokens h input s = (Ok toks, s') ->
  exists entries,
    passwords h = Val entries
    /\ Forall2
         (fun entry token =>
            hasRealm (strategyParam (Stanzas input)) entry = true
            /\ entryToken entry = Val token)
         (List.filter (hasRealm (strategyParam (Stanzas input))) entries)
         toks.
Proof.
  intros H. apply getTokens_inv in H as [_ (entries & Hp & Ht)].
  exists entries. split; [done|].
  unfold tokensOf in Ht.
  assert (Hall : Forall (fun e => hasRealm (strategyParam (Stanzas input)) e = true)
                   (List.filter (hasRealm (strategyParam (Stanzas input))) entries)).
  { apply List.Forall_forall. intros e He. by apply List.filter_In in He as [_ He]. }
  induction Ht as [|e t es ts Het Hrest IH]; [constructor|].
  inversion Hall; subst. constructor; auto.
Qed.

End Credentials.

Section AppCredentials.
Context `{RT : Runtime}.

Lemma appKeys_lastValue keys clientId clientSecret :
  appKeys keys (clientId, clientSecret) =
    (lastValue "username" keys clientId,
     lastValue "clear_password" keys clientSecret).
Proof.
  unfold appKeys. revert clientId clientSecret.
  induction keys as [|key keys IH]; intros clientId clientSecret; [done|].
  cbn [fold_left]. by rewrite IH, !lastValue_cons.
Qed.

Lemma appEntries_from entries acc :
  fold_left
    (fun acc entry =>
       if Contains (ID entry) "apps.googleusercontent.com"
       then appKeys (Contents_Keys entry) acc
       else acc)
    entries acc =
    (lastValue "username" (appMarked entries) (fst acc),
     lastValue "clear_password" (appMarked entries) (snd acc)).
Proof.
  revert acc. induction entries as [|entry entries IH]; intros [clientId clientSecret].
  - done.
  - cbn [fold_left]. rewrite IH. unfold appMarked. cbn [List.filter].
    destruct (Contains (ID entry) _); [|done].
    cbn [flat_map]. by rewrite appKeys_lastValue, !lastValue_app.
Qed.

Lemma appMarked_none entries :
  forallb (fun entry => negb (Contains (ID entry) "apps.googleusercontent.com"))
          entries = true ->
  appMarked entries = [].
Proof.
  unfold appMarked. induction entries as [|entry entries IH]; [done|].
  cbn [forallb List.filter]. intros [H1 H2]%andb_prop.
  destruct (Contains (ID entry) _); [done|]. by apply IH.
Qed.

Lemma getAppCredentials_eq h input s :
  getAppCredentials h input s =
    (match passwords h with
     | Err err =>
         Fatal ("Unable to retrieve password entries for TA-GoogleFitness: "
                +:+ err +:+ nl)
     | Val entries => Ok (appEntries entries)
     end,
     {| files := files s; ticks := ticks s;
        trace := trace s ++ [EvGetEntities (SessionKey input)] |}).
Proof. unfold getAppCredentials, bind, splunk_GetEntities. by destruct (passwords h). Qed.

(** C9.  [getAppCredentials] queries the store once.  If the query
    fails, the run exits fatally.  Otherwise it returns, as client id
    and client secret, the last [username] and the last
    [clear_password] among the attributes of the entries whose
    identifier contains [apps.googleusercontent.com]; when no entry
    matches, both are empty and the call still returns. *)
Theorem getAppCredentials_resolution h input s :
  let s' := {| files := files s; ticks := ticks s;
               trace := trace s ++ [EvGetEntities (SessionKey input)] |} in
  match passwords h with
  | Err err =>
      getAppCredentials h input s =
        (Fatal ("Unable to retrieve password entries for TA-GoogleFitness: "
                +:+ err +:+ nl), s')
  | Val entries =>
      getAppCredentials h input s =
        (Ok (lastValue "username" (appMarked entries) "",
             lastValue "clear_password" (appMarked entries) ""), s')
      /\ (forallb (fun entry =>
                     negb (Contains (ID entry) "apps.googleusercontent.com"))
                  entries = true ->
          getAppCredentials h input s = (Ok ("", ""), s'))
  end.
Proof.
  cbn zeta. rewrite getAppCredentials_eq.
  destruct (passwords h) as [entries|err]; [|done].
  unfold appEntries. rewrite appEntries_from. split; [done|].
  intros H. by rewrite (appMarked_none _ H).
Qed.

End AppCredentials.

Section Window.
Context `{RT : Runtime}.

Lemma checkPointPath_run input p s :
  getCheckPointPath input = Some p -> checkPointPath input s = (Ok p, s).
Proof. intros H. unfold checkPointPath. by rewrite H. Qed.

Lemma readCheckPoint_eq h input p s :
  getCheckPointPath input = Some p ->
  readCheckPoint h input s =
    match files s !! p with
    | None =>
        let err := "open " +:+ p +:+ ": no such file or directory" in
        (Ok (clock h (ticks s), Some err),
         {| files := files s; ticks := S (ticks s);
            trace := (trace s ++ [EvReadFile p])
                     ++ [EvLog ("Unable to read checkpoint file:" +:+ err +:+ nl)] |})
    | Some b =>
        match GobDecode b with
        | Err err =>
            (Ok (Add (clock h (ticks s)) (-2 * Hour), Some err),
             {| files := files s; ticks := S (ticks s);
                trace := (trace s ++ [EvReadFile p])
                         ++ [EvLog ("Unable to decode checkpoint file: " +:+ err +:+ nl)] |})
        | Val t =>
            (Ok (t, None),
             {| files := files s; ticks := ticks s;
                trace := trace s ++ [EvReadFile p] |})
        end
    end.
Proof.
  intros Hp. unfold readCheckPoint, bind. rewrite (checkPointPath_run _ _ _ Hp).
  unfold ioutil_ReadFile. destruct (files s !! p) as [b|]; [|done].
  by destruct (GobDecode b).
Qed.

Lemma getTimes_eq h input p s :
  getCheckPointPath input = Some p ->
  getTimes h input s =
    match files s !! p with
    | None =>
        let err := "open " +:+ p +:+ ": no such file or directory" in
        (Ok (clock h (S (ticks s)), clock h (S (S (ticks s)))),
         {| files := files s; ticks := S (S (S (ticks s)));
            trace := (trace s ++ [EvReadFile p])
                     ++ [EvLog ("Unable to read checkpoint file:" +:+ err +:+ nl)] |})
    | Some b =>
        match GobDecode b with
        | Err err =>
            (Ok (clock h (S (ticks s)), clock h (S (S (ticks s)))),
             {| files := files s; ticks := S (S (S (ticks s)));
                trace := (trace s ++ [EvReadFile p])
                         ++ [EvLog ("Unable to decode checkpoint file: " +:+ err +:+ nl)] |})
        | Val t =>
            (Ok (t, clock h (ticks s)),
             {| files := files s; ticks := S (ticks s);
                trace := trace s ++ [EvReadFile p] |})
        end
    end.
Proof.
  intros Hp. unfold getTimes, bind at 1. rewrite (readCheckPoint_eq _ _ _ _ Hp).
  destruct (files s !! p) as [b|]; [|done].
  by destruct (GobDecode b).
Qed.

(** C1.  What the code does on a checkpoint file that exists but
    does not decode: [readCheckPoint] returns the current time minus
    two hours together with the error, yet [getTimes] replaces that
    value by a fresh reading of the clock, so the window starts at the
    current time; the call returns and the run goes on. *)
Theorem getTimes_corrupt_checkpoint h input p b err s :
  getCheckPointPath input = Some p ->
  files s !! p = Some b ->
  GobDecode b = Err err ->
  exists s1 s2,
    readCheckPoint h input s =
      (Ok (Add (clock h (ticks s)) (-2 * Hour), Some err), s1)
    /\ getTimes h input s =
         (Ok (clock h (S (ticks s)), clock h (S (S (ticks s)))), s2).
Proof.
  intros Hp Hf Hd.
  rewrite (readCheckPoint_eq _ _ _ _ Hp), (getTimes_eq _ _ _ _ Hp), Hf, Hd.
  eauto.
Qed.

(** C6 (amended).  With a clock that never runs backward, the
    window of [getTimes] has its start no later than its end whenever
    the checkpoint file is absent, does not decode, or holds a
    timestamp no later than the current time. *)
Theorem getTimes_window_ordered h input p s :
  getCheckPointPath input = Some p ->
  (forall i j : nat, (i <= j)%nat -> clock h i <= clock h j) ->
  (forall b t, files s !! p = Some b -> GobDecode b = Val t ->
               t <= clock h (ticks s)) ->
  exists startTime endTime s',
    getTimes h input s = (Ok (startTime, endTime), s')
    /\ startTime <= endTime.
Proof.
  intros Hp Hmono Hold. rewrite (getTimes_eq _ _ _ _ Hp).
  destruct (files s !! p) as [b|] eqn:Ef.
  - destruct (GobDecode b) as [t|err] eqn:Ed.
    + do 3 eexists. split; [done|]. by eapply Hold.
    + do 3 eexists. split; [done|]. apply Hmono. lia.
  - do 3 eexists. split; [done|]. apply Hmono. lia.
Qed.

(** C5.  Writing a checkpoint for [t] and reading it back yields [t]
    and no error, for every [t] the gob codec encodes and decodes
    back to itself, when the checkpoint path is defined and the file
    can be written: both calls use the same path and the bytes
    written are the bytes read. *)
Theorem checkpoint_roundtrip h input p t g s :
  getCheckPointPath input = Some p ->
  write_error h p = None ->
  GobEncode t = Val g ->
  GobDecode g = Val t ->
  exists s1 s2,
    writeCheckPoint h input t s = (Ok tt, s1)
    /\ files s1 !! p = Some g
    /\ readCheckPoint h input s1 = (Ok (t, None), s2).
Proof.
  intros Hp Hw He Hd.
  unfold writeCheckPoint. rewrite He. unfold bind at 1.
  rewrite (checkPointPath_run _ _ _ Hp).
  unfold bind, ioutil_WriteFile. rewrite Hw.
  eexists _, _. split; [done|].
  rewrite (readCheckPoint_eq _ _ _ _ Hp). cbn [files].
  rewrite lookup_insert_eq, Hd. done.
Qed.

(** Without a defined checkpoint path both checkpoint operations panic
    ([writeCheckPoint] once the time is encoded). *)
Lemma readCheckPoint_undefined_path h input s :
  getCheckPointPath input = None ->
  readCheckPoint h input s = (Panic "runtime error: index out of range", s).
Proof. intros Hp. unfold readCheckPoint, bind, checkPointPath. by rewrite Hp. Qed.

Lemma writeCheckPoint_undefined_path h input t g s :
  getCheckPointPath input = None ->
  GobEncode t = Val g ->
  writeCheckPoint h input t s = (Panic "runtime error: index out of range", s).
Proof.
  intros Hp He. unfold writeCheckPoint, bind, checkPointPath. by rewrite He, Hp.
Qed.

End Window.

Section Run.
Context `{RT : Runtime}.

Lemma forEach_ext {A} (l : list A) (f g : A -> M unit) s :
  (forall x s, f x s = g x s) -> forEach l f s = forEach l g s.
Proof.
  intros H. revert s. induction l as [|x l IH]; intros s; [done|].
  cbn [forEach]. unfold bind. rewrite H.
  destruct (g x s) as [[[]| |] s1]; auto.
Qed.

(** A fatal exit in one round of a loop ends the loop there. *)
Lemma forEach_Fatal {A} (pre : list A) x post (body : A -> M unit) s s1 msg s' :
  forEach pre body s = (Ok tt, s1) ->
  body x s1 = (Fatal msg, s') ->
  forEach (pre ++ x :: post) body s = (Fatal msg, s').
Proof.
  revert s. induction pre as [|y pre IH]; intros s; cbn [forEach app].
  - intros [= <-] Hx. unfold bind. by rewrite Hx.
  - unfold bind. destruct (body y s) as [[[]| |] s2]; try done. apply IH.
Qed.

Lemma bind_Ok {A B} (m : M A) (k : A -> M B) s a s1 :
  m s = (Ok a, s1) -> bind m k s = k a s1.
Proof. intros H. unfold bind. by rewrite H. Qed.

Lemma bind_ext {A B} (m : M A) (k k' : A -> M B) s :
  (forall a s, k a s = k' a s) -> bind m k s = bind m k' s.
Proof. intros H. unfold bind. destruct (m s) as [[a| |] s1]; auto. Qed.

Lemma StreamEvents_eq h config err s :
  StreamEvents h config err s =
    bind (getTokens h config)
         (fun tokens => forEach tokens (processToken h config))
         (configRead err s).
Proof.
  unfold StreamEvents.
  assert (Hlog : match err with
                 | Some _ => log_Printf "Unable to read Modular Input config from reader."
                 | None => ret tt
                 end s = (Ok tt, configRead err s)) by by destruct err.
  rewrite (bind_Ok _ _ _ _ _ Hlog). cbn zeta.
  apply bind_ext. intros tokens s0.
  apply forEach_ext. clear. intros token s.
  unfold processToken, fetch, bind.
  destruct (getAppCredentials h config s) as [[[clientId clientSecret]| |] s1]; try done.
  destruct (emit _ s1) as [[[]| |] s2]; try done.
  destruct (getTimes h config s2) as [[[startTime endTime]| |] s3]; try done.
  destruct (getReaderStrategy _ _ _ s3) as [[[reader|e]| |] s4]; try done.
Qed.

(** C7.  When [getTokens] resolves no credential, [StreamEvents]
    returns normally in the state [getTokens] left: the files and the
    clock are untouched and the only event after the configuration was
    read is the store query of [getTokens]: no client, no fetch, no
    checkpoint access. *)
Theorem StreamEvents_no_credentials h config err s s1 :
  getTokens h config (configRead err s) = (Ok [], s1) ->
  StreamEvents h config err s = (Ok tt, s1)
  /\ files s1 = files s
  /\ ticks s1 = ticks s
  /\ trace s1 = trace (configRead err s) ++ [EvGetEntities (SessionKey config)].
Proof.
  intros H. rewrite StreamEvents_eq. unfold bind. rewrite H. split; [done|].
  apply getTokens_inv in H as [-> _]. by destruct err.
Qed.

(** No stored entry of the configured realm: the run does nothing
    beyond the store query. *)
Lemma StreamEvents_no_matching_entry h config err s entries :
  passwords h = Val entries ->
  strategyParam (Stanzas config) <> "" ->
  List.filter (hasRealm (strategyParam (Stanzas config))) entries = [] ->
  StreamEvents h config err s =
    (Ok tt, {| files := files (configRead err s); ticks := ticks (configRead err s);
               trace := trace (configRead err s)
                        ++ [EvGetEntities (SessionKey config)] |}).
Proof.
  intros Hp Hs Hnone. rewrite StreamEvents_eq.
  assert (Hnil : tokensOf
            (List.filter (hasRealm (strategyParam (Stanzas config))) entries) [])
    by (rewrite Hnone; constructor).
  by rewrite (bind_Ok _ _ _ _ _ (getTokens_run h config entries [] _ Hp Hs Hnil)).
Qed.

Lemma writeCheckPoint_fails h input t s :
  (exists e, GobEncode t = Err e)
  \/ (exists g p e, GobEncode t = Val g
                    /\ getCheckPointPath input = Some p
                    /\ write_error h p = Some e) ->
  exists msg s',
    writeCheckPoint h input t s = (Fatal msg, s')
    /\ files s' = files s /\ ticks s' = ticks s
    /\ (trace s' = trace s \/ exists p, trace s' = trace s ++ [EvWriteFailed p]).
Proof.
  unfold writeCheckPoint.
  intros [[e He]|(g & p & e & He & Hp & Hw)]; rewrite He.
  - eexists _, _. split; [done|]. auto.
  - unfold bind. rewrite (checkPointPath_run _ _ _ Hp).
    unfold ioutil_WriteFile. rewrite Hw.
    eexists _, _. split; [done|]. cbn. eauto 6.
Qed.

(** C8.  If, for some credential of the sequence, the fetch returns
    [t] and then encoding [t] or writing the checkpoint file fails,
    [StreamEvents] exits fatally in the state of that failure: the
    files and the clock are as the fetch left them and the trace ends
    there (at most the failed write is added), so no later credential
    is processed. *)
Theorem checkpoint_failure_stops_run h config err s pre token post s0 s1 t s2 :
  getTokens h config (configRead err s) = (Ok (pre ++ token :: post), s0) ->
  forEach pre (processToken h config) s0 = (Ok tt, s1) ->
  fetch h config token s1 = (Ok t, s2) ->
  (exists e, GobEncode t = Err e)
  \/ (exists g p e, GobEncode t = Val g
                    /\ getCheckPointPath config = Some p
                    /\ write_error h p = Some e) ->
  exists msg s',
    StreamEvents h config err s = (Fatal msg, s')
    /\ files s' = files s2 /\ ticks s' = ticks s2
    /\ (trace s' = trace s2 \/ exists p, trace s' = trace s2 ++ [EvWriteFailed p]).
Proof.
  intros Htok Hpre Hfetch Hfail.
  destruct (writeCheckPoint_fails h config t s2 Hfail) as (msg & s' & Hw & Hrest).
  exists msg, s'. split; [|done].
  rewrite StreamEvents_eq. unfold bind at 1. rewrite Htok.
  apply (forEach_Fatal _ _ _ _ _ s1); [done|].
  unfold processToken, bind. by rewrite Hfetch.
Qed.

End Run.

Section Dispatch.
Context `{RT : Runtime}.

Lemma getReaderStrategy_eq input startTime endTime s :
  strategyParam (Stanzas input) <> "" ->
  getReaderStrategy input startTime endTime s =
    (Ok (if String.eqb (strategyParam (Stanzas input)) STRATEGY_GOOGLE
         then Val (GoogleFitnessReader startTime endTime)
         else Err ("Unsupported reader requested: " +:+ strategyParam (Stanzas input))),
     s).
Proof.
  intros H. unfold getReaderStrategy, bind. rewrite (getStrategy_run _ _ H).
  by destruct (String.eqb _ STRATEGY_GOOGLE).
Qed.

(** What [getTimes] leaves behind: the files as they were, and
    neither a client nor a fetch in the trace. *)
Lemma getTimes_quiet h input p s :
  getCheckPointPath input = Some p ->
  exists startTime endTime s',
    getTimes h input s = (Ok (startTime, endTime), s')
    /\ files s' = files s
    /\ built_clients (trace s') = built_clients (trace s)
    /\ getData_clients (trace s') = getData_clients (trace s).
Proof.
  intros Hp. rewrite (getTimes_eq _ _ _ _ Hp).
  unfold built_clients, getData_clients.
  destruct (files s !! p) as [b|]; [destruct (GobDecode b)|];
    do 3 eexists; (split; [done|]); cbn [files trace];
    rewrite !flat_map_app; cbn; by rewrite ?app_nil_r.
Qed.

Lemma fetch_eq h input entries token s startTime endTime s1 :
  passwords h = Val entries ->
  strategyParam (Stanzas input) <> "" ->
  getTimes h input (clientBuilt input entries token s)
    = (Ok (startTime, endTime), s1) ->
  fetch h input token s =
    if String.eqb (strategyParam (Stanzas input)) STRATEGY_GOOGLE
    then (Ok (GoogleFitnessReader_getData startTime endTime (clientFor entries token)),
          {| files := files s1; ticks := ticks s1;
             trace := trace s1 ++ [EvGetData (clientFor entries token) startTime endTime] |})
    else (Fatal ("Unsupported reader requested: " +:+ strategyParam (Stanzas input)), s1).
Proof.
  intros Hpw Hne Ht. unfold fetch, clientFor, clientBuilt in *.
  erewrite bind_Ok; [|by rewrite getAppCredentials_eq, Hpw].
  destruct (appEntries entries) as [clientId clientSecret]. cbv beta iota.
  erewrite bind_Ok; [|reflexivity].
  erewrite bind_Ok; [|exact Ht]. cbv beta iota.
  erewrite bind_Ok; [|by apply getReaderStrategy_eq].
  by destruct (String.eqb _ STRATEGY_GOOGLE).
Qed.

Lemma clients_snoc_other (evs : list Event) ev :
  match ev with EvGetClient _ _ _ | EvGetData _ _ _ => False | _ => True end ->
  built_clients (evs ++ [ev]) = built_clients evs
  /\ getData_clients (evs ++ [ev]) = getData_clients evs.
Proof.
  unfold built_clients, getData_clients. rewrite !flat_map_app.
  destruct ev; cbn; rewrite ?app_nil_r; done.
Qed.

Lemma processToken_unsupported h input entries p token s :
  passwords h = Val entries ->
  getCheckPointPath input = Some p ->
  strategyParam (Stanzas input) <> "" ->
  String.eqb (strategyParam (Stanzas input)) STRATEGY_GOOGLE = false ->
  exists s',
    processToken h input token s =
      (Fatal ("Unsupported reader requested: " +:+ strategyParam (Stanzas input)), s')
    /\ files s' = files s
    /\ built_clients (trace s') = built_clients (trace s) ++ [clientFor entries token]
    /\ getData_clients (trace s') = getData_clients (trace s).
Proof.
  intros Hpw Hp Hne Hng.
  destruct (getTimes_quiet h input p (clientBuilt input entries token s) Hp)
    as (st & en & s1 & Ht & Hf & Hb & Hg).
  exists s1. unfold processToken, bind.
  rewrite (fetch_eq _ _ _ _ _ _ _ _ Hpw Hne Ht), Hng.
  split; [done|]. rewrite Hf, Hb, Hg. cbn [clientBuilt files trace].
  unfold built_clients, getData_clients, clientFor. rewrite !flat_map_app. cbn.
  by rewrite !app_nil_r.
Qed.

Lemma processToken_google h input entries p token s :
  passwords h = Val entries ->
  getCheckPointPath input = Some p ->
  strategyParam (Stanzas input) = STRATEGY_GOOGLE ->
  write_error h p = None ->
  (forall t, exists g, GobEncode t = Val g) ->
  exists s',
    processToken h input token s = (Ok tt, s')
    /\ built_clients (trace s') = built_clients (trace s) ++ [clientFor entries token]
    /\ getData_clients (trace s') = getData_clients (trace s) ++ [clientFor entries token].
Proof.
  intros Hpw Hp Hs Hw Henc.
  destruct (getTimes_quiet h input p (clientBuilt input entries token s) Hp)
    as (st & en & s1 & Ht & Hf & Hb & Hg).
  assert (Hne : strategyParam (Stanzas input) <> "") by by rewrite Hs.
  unfold processToken.
  erewrite bind_Ok; [|by rewrite (fetch_eq _ _ _ _ _ _ _ _ Hpw Hne Ht), Hs].
  unfold writeCheckPoint.
  destruct (Henc (GoogleFitnessReader_getData st en (clientFor entries token)))
    as [g ->].
  erewrite bind_Ok; [|by apply checkPointPath_run].
  unfold bind, ioutil_WriteFile. rewrite Hw.
  eexists. split; [done|]. cbn [files trace].
  unfold built_clients, getData_clients in *. rewrite !flat_map_app, Hb, Hg.
  cbn [clientBuilt trace]. rewrite !flat_map_app. cbn. by rewrite !app_nil_r.
Qed.

(** C2 (amended).  Let the store hold exactly two entries tagged with
    the configured strategy, both with payloads that decode, and let
    the checkpoint path be defined.  For [FitBit], [getReaderStrategy]
    returns the error [Unsupported reader requested: FitBit] and
    [StreamEvents] exits fatally with it on the first credential,
    after building that credential's client and before any [getData];
    no file is written.  For [GoogleFitness], when checkpoints can be
    encoded and written, [StreamEvents] returns normally, having built
    two clients, one per credential, and called [getData] exactly
    twice, each time with the client of its own credential. *)
Theorem two_stored_credentials h config err s entries e1 e2 tok1 tok2 p :
  passwords h = Val entries ->
  List.filter (hasRealm (strategyParam (Stanzas config))) entries = [e1; e2] ->
  entryToken e1 = Val tok1 ->
  entryToken e2 = Val tok2 ->
  getCheckPointPath config = Some p ->
  (strategyParam (Stanzas config) = STRATEGY_FITBIT ->
     (forall startTime endTime s0,
        getReaderStrategy config startTime endTime s0 =
          (Ok (Err "Unsupported reader requested: FitBit"), s0))
     /\ exists s',
         StreamEvents h config err s =
           (Fatal "Unsupported reader requested: FitBit", s')
         /\ files s' = files s
         /\ built_clients (trace s') =
              built_clients (trace s) ++ [clientFor entries tok1]
         /\ getData_clients (trace s') = getData_clients (trace s))
  /\ (strategyParam (Stanzas config) = STRATEGY_GOOGLE ->
      write_error h p = None ->
      (forall t, exists g, GobEncode t = Val g) ->
      exists s',
        StreamEvents h config err s = (Ok tt, s')
        /\ built_clients (trace s') =
             built_clients (trace s)
             ++ [clientFor entries tok1; clientFor entries tok2]
        /\ getData_clients (trace s') =
             getData_clients (trace s)
             ++ [clientFor entries tok1; clientFor entries tok2]).
Proof.
  intros Hpw Hfilter Ht1 Ht2 Hp.
  assert (Htoks : tokensOf
            (List.filter (hasRealm (strategyParam (Stanzas config))) entries)
            [tok1; tok2]).
  { rewrite Hfilter. by repeat constructor. }
  assert (Hstart : built_clients (trace (configRead err s)) = built_clients (trace s)
                   /\ getData_clients (trace (configRead err s)) = getData_clients (trace s)).
  { destruct err; [|done]. by apply clients_snoc_other. }
  destruct Hstart as [Hb0 Hg0].
  assert (Hf0 : files (configRead err s) = files s) by by destruct err.
  split.
  - intros Hs.
    assert (Hne : strategyParam (Stanzas config) <> "") by by rewrite Hs.
    split.
    { intros st en s0. rewrite (getReaderStrategy_eq _ _ _ _ Hne). by rewrite Hs. }
    rewrite StreamEvents_eq.
    erewrite bind_Ok; [|by eapply getTokens_run].
    cbn [forEach].
    match goal with |- context [bind (processToken h config tok1) _ ?s0] =>
      destruct (processToken_unsupported h config entries p tok1 s0 Hpw Hp Hne)
        as (s' & Hrun & Hf & Hb & Hg); [by rewrite Hs|] end.
    exists s'. unfold bind. rewrite Hrun, Hs. split; [done|].
    rewrite Hf, Hb, Hg. cbn [files trace].
    destruct (clients_snoc_other (trace (configRead err s))
                (EvGetEntities (SessionKey config)) I) as [-> ->].
    by rewrite Hf0, Hb0, Hg0.
  - intros Hs Hw Henc.
    assert (Hne : strategyParam (Stanzas config) <> "") by by rewrite Hs.
    rewrite StreamEvents_eq.
    erewrite bind_Ok; [|by eapply getTokens_run].
    cbn [forEach].
    match goal with |- context [bind (processToken h config tok1) _ ?s0] =>
      destruct (processToken_google h config entries p tok1 s0 Hpw Hp Hs Hw Henc)
        as (s1 & Hrun1 & Hb1 & Hg1) end.
    destruct (processToken_google h config entries p tok2 s1 Hpw Hp Hs Hw Henc)
        as (s2 & Hrun2 & Hb2 & Hg2).
    exists s2. unfold bind. rewrite Hrun1, Hrun2. split; [done|].
    rewrite Hb2, Hg2, Hb1, Hg1. cbn [trace].
    destruct (clients_snoc_other (trace (configRead err s))
                (EvGetEntities (SessionKey config)) I) as [-> ->].
    by rewrite Hb0, Hg0, <- !app_assoc.
Qed.

End Dispatch.

Create HintDb tracing.

Section Tracing.
Context `{RT : Runtime}.

Lemma tracing_ret {A} (a : A) : tracing (ret a).
Proof. intros s. exists []. cbn. by rewrite app_nil_r. Qed.

Lemma tracing_log_Fatal {A} msg : tracing (@log_Fatal _ A msg).
Proof. intros s. exists []. cbn. by rewrite app_nil_r. Qed.

Lemma tracing_panic {A} msg : tracing (@panic _ A msg).
Proof. intros s. exists []. cbn. by rewrite app_nil_r. Qed.

Lemma tracing_emit ev : tracing (emit ev).
Proof. intros s. by exists [ev]. Qed.

Lemma tracing_time_Now h : tracing (time_Now h).
Proof. intros s. exists []. cbn. by rewrite app_nil_r. Qed.

Lemma tracing_ReadFile path : tracing (ioutil_ReadFile path).
Proof. intros s. by exists [EvReadFile path]. Qed.

Lemma tracing_WriteFile h path data : tracing (ioutil_WriteFile h path data).
Proof.
  intros s. unfold ioutil_WriteFile. destruct (write_error h path); by eexists.
Qed.

Lemma tracing_GetEntities h key : tracing (splunk_GetEntities h key).
Proof. intros s. by eexists. Qed.

Lemma tracing_bind {A B} (m : M A) (k : A -> M B) :
  tracing m -> (forall a, tracing (k a)) -> tracing (bind m k).
Proof.
  intros Hm Hk s. unfold bind. destruct (Hm s) as [evs1 H1].
  destruct (m s) as [[a| |] s1]; cbn [snd] in *; [|by exists evs1..].
  destruct (Hk a s1) as [evs2 H2]. exists (evs1 ++ evs2).
  by rewrite H2, H1, app_assoc.
Qed.

#[local] Hint Resolve tracing_ret tracing_log_Fatal tracing_panic tracing_emit
  tracing_time_Now tracing_ReadFile tracing_WriteFile tracing_GetEntities
  : tracing.

Ltac solve_tracing :=
  repeat first
    [ progress auto with tracing
    | apply tracing_bind; [|intros ?]
    | match goal with
      | |- tracing (match ?x with _ => _ end) => destruct x
      end ].

Lemma tracing_getStrategy input : tracing (getStrategy input).
Proof. unfold getStrategy. solve_tracing. Qed.
#[local] Hint Resolve tracing_getStrategy : tracing.

Lemma tracing_scanKeys input keys b j : tracing (scanKeys input keys b j).
Proof.
  revert b j. induction keys as [|key keys IH]; intros b j; cbn [scanKeys]; solve_tracing.
Qed.
#[local] Hint Resolve tracing_scanKeys : tracing.

Lemma tracing_scanEntries input entries result :
  tracing (scanEntries input entries result).
Proof.
  revert result. induction entries as [|entry entries IH]; intros result;
    cbn [scanEntries]; solve_tracing.
Qed.
#[local] Hint Resolve tracing_scanEntries : tracing.

Lemma tracing_getAppCredentials h input : tracing (getAppCredentials h input).
Proof. unfold getAppCredentials. solve_tracing. Qed.

Lemma tracing_checkPointPath input : tracing (checkPointPath input).
Proof. unfold checkPointPath. solve_tracing. Qed.
#[local] Hint Resolve tracing_getAppCredentials tracing_checkPointPath : tracing.

Lemma tracing_writeCheckPoint h input t : tracing (writeCheckPoint h input t).
Proof. unfold writeCheckPoint. solve_tracing. Qed.

Lemma tracing_readCheckPoint h input : tracing (readCheckPoint h input).
Proof. unfold readCheckPoint, log_Printf. solve_tracing. Qed.
#[local] Hint Resolve tracing_writeCheckPoint tracing_readCheckPoint : tracing.

Lemma tracing_getTimes h input : tracing (getTimes h input).
Proof. unfold getTimes. solve_tracing. Qed.

Lemma tracing_getReaderStrategy input startTime endTime :
  tracing (getReaderStrategy input startTime endTime).
Proof. unfold getReaderStrategy. solve_tracing. Qed.

Lemma tracing_getData reader client : tracing (getData reader client).
Proof. unfold getData. solve_tracing. Qed.
#[local] Hint Resolve tracing_getTimes tracing_getReaderStrategy tracing_getData : tracing.

Lemma tracing_processToken h input token : tracing (processToken h input token).
Proof. unfold processToken, fetch. solve_tracing. Qed.
#[local] Hint Resolve tracing_processToken : tracing.

Lemma tracing_forEach {A} (l : list A) (body : A -> M unit) :
  (forall x, tracing (body x)) -> tracing (forEach l body).
Proof. intros H. induction l as [|x l IH]; cbn [forEach]; solve_tracing. Qed.

Lemma bind_assoc {A B C} (m : M A) (k : A -> M B) (k' : B -> M C) s :
  bind (bind m k) k' s = bind m (fun a => bind (k a) k') s.
Proof. unfold bind. by destruct (m s) as [[a| |] s1]. Qed.

(** Every run starts by querying the store. *)
Lemma StreamEvents_queries_first h config err s :
  exists evs,
    trace (snd (StreamEvents h config err s)) =
      trace (configRead err s) ++ EvGetEntities (SessionKey config) :: evs.
Proof.
  rewrite StreamEvents_eq. unfold getTokens. rewrite bind_assoc.
  erewrite bind_Ok; [|reflexivity].
  match goal with |- context [snd (?m ?s0)] =>
    assert (Hm : tracing m) end.
  { apply tracing_bind; [solve_tracing|]. intros tokens.
    apply tracing_forEach. solve_tracing. }
  destruct (Hm {| files := files (configRead err s); ticks := ticks (configRead err s);
                  trace := trace (configRead err s) ++ [EvGetEntities (SessionKey config)] |})
    as [evs Hevs].
  exists evs. rewrite Hevs. cbn [trace]. by rewrite <- app_assoc.
Qed.

Lemma improperParam_knownStrategy params v :
  improperParam params = Some v -> knownStrategy v = false.
Proof.
  induction params as [|param params IH]; [done|]. cbn [improperParam].
  destruct (String.eqb (Name param) STRATEGY_PARAM_NAME); [|done].
  destruct (knownStrategy (Value param)) eqn:E; [done|]. by intros [= <-].
Qed.

Lemma improperParam_complete params param :
  In param params ->
  Name param = STRATEGY_PARAM_NAME ->
  knownStrategy (Value param) = false ->
  exists v, improperParam params = Some v.
Proof.
  intros Hin Hn Hk. induction params as [|q params IH]; [done|].
  cbn [improperParam].
  destruct (String.eqb (Name q) STRATEGY_PARAM_NAME && negb (knownStrategy (Value q)))
    eqn:E; [eauto|].
  destruct Hin as [->|Hin]; [|auto].
  rewrite Hn, Hk, String.eqb_refl in E. done.
Qed.

Lemma improperService_knownStrategy stanzas v :
  improperService stanzas = Some v -> knownStrategy v = false.
Proof.
  induction stanzas as [|stanza stanzas IH]; [done|]. cbn [improperService].
  destruct (improperParam (Params stanza)) as [w|] eqn:E; [|done].
  intros [= <-]. by eapply improperParam_knownStrategy.
Qed.

Lemma improperService_complete stanzas stanza param :
  In stanza stanzas ->
  In param (Params stanza) ->
  Name param = STRATEGY_PARAM_NAME ->
  knownStrategy (Value param) = false ->
  exists v, improperService stanzas = Some v.
Proof.
  intros Hin Hp Hn Hk. induction stanzas as [|st stanzas IH]; [done|].
  cbn [improperService].
  destruct (improperParam (Params st)) as [w|] eqn:E; [eauto|].
  destruct Hin as [->|Hin]; [|auto].
  destruct (improperParam_complete _ _ Hp Hn Hk) as [v Hv]. congruence.
Qed.

(** C3 (amended).  For a configuration with a [FitnessService]
    parameter whose value is none of [GoogleFitness], [FitBit] and
    [Microsoft], [ValidateScheme] answers [false] with the message
    [Improper service '...' name indicated.] and changes nothing: no
    store query, no checkpoint access.  [StreamEvents] does not
    validate: whatever the configuration, its first action after
    reading it is the store query of [getTokens]. *)
Theorem unknown_provider_rejected_by_validation h config err s stanza param :
  In stanza (Stanzas config) ->
  In param (Params stanza) ->
  Name param = STRATEGY_PARAM_NAME ->
  knownStrategy (Value param) = false ->
  (exists v,
      knownStrategy v = false
      /\ ValidateScheme (Val config) s =
           (Ok (false, "Improper service '" +:+ v +:+ "' name indicated."), s))
  /\ (exists evs,
         trace (snd (StreamEvents h config err s)) =
           trace (configRead err s) ++ EvGetEntities (SessionKey config) :: evs).
Proof.
  intros Hst Hp Hn Hk. split; [|apply StreamEvents_queries_first].
  destruct (improperService_complete _ _ _ Hst Hp Hn Hk) as [v Hv].
  exists v. split; [by eapply improperService_knownStrategy|].
  unfold ValidateScheme. by rewrite Hv.
Qed.

End Tracing.

Module TimeWireFacts.
Import TimeWire.

Lemma length_be_bytes n x : length (be_bytes n x) = n.
Proof.
  revert x. induction n as [|n IH]; intros x; [done|].
  cbn [be_bytes]. rewrite length_app, IH. cbn. lia.
Qed.

Lemma be_uint_snoc bs b :
  be_uint (bs ++ [b]) = Z.lor (Z.shiftl (be_uint bs) 8) b.
Proof. unfold be_uint. by rewrite fold_left_app. Qed.

(** Cutting [x] into bytes and gluing them again keeps its [8n] low bits. *)
Lemma be_uint_be_bytes n x :
  be_uint (be_bytes n x) = x mod 2 ^ (8 * Z.of_nat n).
Proof.
  revert x. induction n as [|n IH]; intros x.
  - cbn. by rewrite Z.mod_1_r.
  - cbn [be_bytes]. rewrite be_uint_snoc, IH.
    change 255 with (Z.ones 8). rewrite Z.land_ones by lia.
    apply Z.bits_inj'. intros i Hi.
    rewrite Z.lor_spec.
    destruct (Z.lt_ge_cases i 8) as [Hlt|Hge].
    + rewrite Z.shiftl_spec_low by lia.
      rewrite !Z.mod_pow2_bits_low by lia. done.
    + rewrite Z.shiftl_spec by lia.
      rewrite (Z.mod_pow2_bits_high x 8) by lia. rewrite orb_false_r.
      destruct (Z.lt_ge_cases i (8 * Z.of_nat (S n))) as [Hlt'|Hge'].
      * rewrite !Z.mod_pow2_bits_low by lia.
        rewrite Z.shiftr_spec by lia. f_equal. lia.
      * rewrite !Z.mod_pow2_bits_high by lia. done.
Qed.

Lemma signed_mod w x :
  0 < w -> - 2 ^ (w - 1) <= x < 2 ^ (w - 1) -> signed w (x mod 2 ^ w) = x.
Proof.
  intros Hw Hx. unfold signed.
  assert (H2 : 2 ^ w = 2 * 2 ^ (w - 1)).
  { rewrite <- Z.pow_succ_r by lia. f_equal. lia. }
  rewrite Zplus_mod_idemp_l. rewrite Z.mod_small; lia.
Qed.

(** Any instant whose seconds fit an [int64] survives the wire. *)
Lemma UnmarshalBinary_MarshalBinary t g :
  - 2 ^ 63 <= sec t < 2 ^ 63 ->
  MarshalBinary t = Val g ->
  UnmarshalBinary g = Val t.
Proof.
  intros Hsec Hg.
  assert (g = timeBinaryVersion
                :: be_bytes 8 (sec t) ++ be_bytes 4 (nsec t) ++ be_bytes 2 (-1)) as ->
    by (unfold MarshalBinary in Hg; congruence).
  clear Hg. unfold UnmarshalBinary.
  change (negb (timeBinaryVersion =? timeBinaryVersion)) with false. cbv iota.
  cbn [length]. rewrite !length_app, !length_be_bytes. cbn [Nat.add Nat.eqb negb].
  rewrite take_app_length' by by rewrite length_be_bytes.
  rewrite drop_app_length' by by rewrite length_be_bytes.
  rewrite take_app_length' by by rewrite length_be_bytes.
  rewrite !be_uint_be_bytes.
  change (8 * Z.of_nat 8) with 64. change (8 * Z.of_nat 4) with 32.
  rewrite (signed_mod 64) by (done || lia).
  assert (Hn : 0 <= nsec t < 1000000000) by (apply Z.mod_pos_bound; lia).
  rewrite (signed_mod 32) by (done || lia).
  f_equal. unfold sec, nsec.
  pose proof (Z.div_mod t 1000000000). lia.
Qed.

End TimeWireFacts.

(** * Further properties *)

Section Validation.
Context `{RT : Runtime}.

Lemma improperParam_find params :
  improperParam params = Value <$> List.find improperChoice params.
Proof.
  induction params as [|param params IH]; [done|]. cbn [improperParam List.find].
  unfold improperChoice at 1, isStrategyParam.
  by destruct (String.eqb (Name param) STRATEGY_PARAM_NAME
               && negb (knownStrategy (Value param))).
Qed.

Lemma find_app_first {A} (f : A -> bool) (l1 l2 : list A) :
  List.find f (l1 ++ l2) =
    match List.find f l1 with
    | Some x => Some x
    | None => List.find f l2
    end.
Proof. induction l1 as [|a l1 IH]; cbn; [done|]. by destruct (f a). Qed.

Lemma improperService_find stanzas :
  improperService stanzas = Value <$> List.find improperChoice (allParams stanzas).
Proof.
  induction stanzas as [|stanza stanzas IH]; [done|].
  cbn [improperService allParams flat_map]. fold (allParams stanzas).
  rewrite find_app_first, improperParam_find, IH.
  by destruct (List.find improperChoice (Params stanza)).
Qed.

(** X1.  [ValidateScheme] on a configuration that parsed: the answer is
    decided by the first parameter, in configuration order over all
    stanzas, that is called [FitnessService] and has an unknown value.
    With one, the answer is [false] and the message quotes that value;
    without one, the answer is [true] with an empty message.  The state
    is untouched. *)
Theorem ValidateScheme_first_offender config s :
  ValidateScheme (Val config) s =
    (Ok match List.find improperChoice (allParams (Stanzas config)) with
        | Some param =>
            (false, "Improper service '" +:+ Value param +:+ "' name indicated.")
        | None => (true, "")
        end, s).
Proof.
  unfold ValidateScheme. rewrite improperService_find.
  by destruct (List.find improperChoice _).
Qed.

(** X2.  [ValidateScheme] accepts a configuration exactly when every
    [FitnessService] parameter of every stanza is [GoogleFitness],
    [FitBit] or [Microsoft]; parameters of any other name are never
    looked at. *)
Theorem ValidateScheme_accepts_iff config s :
  ValidateScheme (Val config) s = (Ok (true, ""), s)
  <-> forall stanza param,
        In stanza (Stanzas config) -> In param (Params stanza) ->
        Name param = STRATEGY_PARAM_NAME ->
        Value param = STRATEGY_GOOGLE \/ Value param = STRATEGY_FITBIT
        \/ Value param = STRATEGY_MICROSOFT.
Proof.
  unfold ValidateScheme. rewrite improperService_find. split.
  - intros H stanza param Hst Hp Hn.
    destruct (List.find improperChoice _) as [q|] eqn:Ef; [done|].
    assert (Hin : In param (allParams (Stanzas config))).
    { apply in_flat_map. eauto. }
    pose proof (find_none _ _ Ef _ Hin) as Hq.
    unfold improperChoice, isStrategyParam in Hq.
    rewrite Hn, String.eqb_refl in Hq. cbn in Hq.
    apply negb_false_iff in Hq. unfold knownStrategy in Hq.
    apply orb_prop in Hq as [Hq|Hq]; [apply orb_prop in Hq as [Hq|Hq]|];
      apply String.eqb_eq in Hq; auto.
  - intros H. destruct (List.find improperChoice _) as [q|] eqn:Ef; [|done].
    apply find_some in Ef as [Hin Hq]. exfalso.
    apply in_flat_map in Hin as (stanza & Hst & Hp).
    unfold improperChoice, isStrategyParam in Hq.
    apply andb_prop in Hq as [Hn Hk]. apply String.eqb_eq in Hn.
    apply negb_true_iff in Hk. unfold knownStrategy in Hk.
    destruct (H stanza q Hst Hp Hn) as [E|[E|E]]; rewrite E in Hk; done.
Qed.

Lemma fold_params_app (params1 params2 : list Param) (init : string) :
  fold_left (fun strategy param =>
               if String.eqb (Name param) STRATEGY_PARAM_NAME
               then Value param else strategy) (params1 ++ params2) init =
  fold_left (fun strategy param =>
               if String.eqb (Name param) STRATEGY_PARAM_NAME
               then Value param else strategy) params2
    (fold_left (fun strategy param =>
               if String.eqb (Name param) STRATEGY_PARAM_NAME
               then Value param else strategy) params1 init).
Proof. apply fold_left_app. Qed.

Lemma strategyParam_flat stanzas init :
  fold_left
    (fun strategy stanza =>
       fold_left
         (fun strategy param =>
            if String.eqb (Name param) STRATEGY_PARAM_NAME
            then Value param else strategy)
         (Params stanza) strategy)
    stanzas init =
  fold_left (fun strategy param =>
               if String.eqb (Name param) STRATEGY_PARAM_NAME
               then Value param else strategy) (allParams stanzas) init.
Proof.
  revert init. induction stanzas as [|stanza stanzas IH]; intros init; [done|].
  cbn [fold_left allParams flat_map]. fold (allParams stanzas).
  by rewrite fold_params_app, IH.
Qed.

Lemma fold_params_last params init :
  fold_left (fun strategy param =>
               if String.eqb (Name param) STRATEGY_PARAM_NAME
               then Value param else strategy) params init =
  match List.find isStrategyParam (rev params) with
  | Some param => Value param
  | None => init
  end.
Proof.
  revert init. induction params as [|param params IH]; intros init; [done|].
  cbn [fold_left rev]. rewrite IH, find_app_first.
  destruct (List.find isStrategyParam (rev params)); [done|].
  cbn [List.find]. unfold isStrategyParam.
  by destruct (String.eqb (Name param) STRATEGY_PARAM_NAME).
Qed.

Lemma strategyParam_last stanzas :
  strategyParam stanzas =
    match List.find isStrategyParam (rev (allParams stanzas)) with
    | Some param => Value param
    | None => ""
    end.
Proof. unfold strategyParam. by rewrite strategyParam_flat, fold_params_last. Qed.

(** X3.  [getStrategy] answers the value of the last [FitnessService]
    parameter, in configuration order over all stanzas.  It exits
    fatally when there is none, and also when that last value is empty,
    whatever earlier parameters say. *)
Theorem getStrategy_last_wins input s :
  getStrategy input s =
    (match List.find isStrategyParam (rev (allParams (Stanzas input))) with
     | Some param =>
         if String.eqb (Value param) ""
         then Fatal "No strategy passed to Fitness Input"
         else Ok (Value param)
     | None => Fatal "No strategy passed to Fitness Input"
     end, s).
Proof.
  unfold getStrategy. rewrite strategyParam_last.
  destruct (List.find isStrategyParam _) as [param|]; [|done].
  by destruct (String.eqb (Value param) "").
Qed.

(** X4.  For a configuration [ValidateScheme] accepts, [getStrategy]
    either returns one of the three known names, or exits fatally; and
    it exits fatally only when no parameter at all is called
    [FitnessService], which validation lets pass. *)
Theorem validated_strategy_is_known input s s' :
  ValidateScheme (Val input) s = (Ok (true, ""), s) ->
  (exists v, knownStrategy v = true /\ getStrategy input s' = (Ok v, s'))
  \/ (Forall (fun param => Name param <> STRATEGY_PARAM_NAME)
             (allParams (Stanzas input))
      /\ getStrategy input s' = (Fatal "No strategy passed to Fitness Input", s')).
Proof.
  unfold ValidateScheme, getStrategy.
  rewrite improperService_find, strategyParam_last.
  destruct (List.find improperChoice _) as [q|] eqn:Ef; [done|]. intros _.
  destruct (List.find isStrategyParam _) as [param|] eqn:El.
  - left. apply find_some in El as [Hin Hn]. apply in_rev in Hin.
    pose proof (find_none _ _ Ef _ Hin) as Hq. unfold improperChoice in Hq.
    rewrite Hn in Hq. cbn in Hq. apply negb_false_iff in Hq.
    exists (Value param). split; [done|].
    destruct (String.eqb_spec (Value param) "") as [E|]; [|done].
    rewrite E in Hq. done.
  - right. split; [|done]. apply List.Forall_forall. intros param Hin Hn.
    apply in_rev in Hin. pose proof (find_none _ _ El _ Hin) as Hq.
    unfold isStrategyParam in Hq. rewrite Hn, String.eqb_refl in Hq. done.
Qed.

End Validation.

Section Tokens.
Context `{RT : Runtime}.

Lemma scanKeys_state input keys b j s : snd (scanKeys input keys b j s) = s.
Proof.
  revert b j. induction keys as [|key keys IH]; intros b j; cbn [scanKeys]; [done|].
  destruct (String.eqb (Key_Name key) "clear_password"); [apply IH|].
  destruct (String.eqb (Key_Name key) "realm"); [|apply IH].
  unfold bind, getStrategy.
  destruct (String.eqb (strategyParam (Stanzas input)) ""); [done|]. cbn.
  destruct (String.eqb (Key_Value key) _); apply IH.
Qed.

Lemma scanEntries_state input entries result s :
  snd (scanEntries input entries result s) = s.
Proof.
  revert result. induction entries as [|entry entries IH]; intros result;
    cbn [scanEntries]; [done|].
  unfold bind. pose proof (scanKeys_state input (Contents_Keys entry) false "" s) as Hk.
  destruct (scanKeys _ _ _ _ s) as [[[isFor json]| |] s1]; cbn in Hk; subst s1;
    [|done..].
  destruct isFor; [|apply IH].
  destruct (json_Decode json); [apply IH|done].
Qed.

(** X5.  Whatever its outcome (tokens, a fatal exit on a store error,
    on a payload that does not decode or on a missing strategy),
    [getTokens] leaves the files and the clock as they were and adds
    exactly one event: its single query of the store. *)
Theorem getTokens_read_only h input s :
  snd (getTokens h input s) = storeQueried input s.
Proof.
  unfold getTokens. erewrite bind_Ok; [|reflexivity].
  destruct (passwords h) as [entries|err]; [apply scanEntries_state|reflexivity].
Qed.

Lemma scanEntries_app input pre post result toks s :
  strategyParam (Stanzas input) <> "" ->
  tokensOf (List.filter (hasRealm (strategyParam (Stanzas input))) pre) toks ->
  scanEntries input (pre ++ post) result s
    = scanEntries input post (result ++ toks) s.
Proof.
  intros Hs. revert result toks.
  induction pre as [|entry pre IH]; intros result toks; cbn [app List.filter].
  - intros H. inversion H. by rewrite app_nil_r.
  - cbn [scanEntries]. unfold bind at 1. rewrite (scanKeys_run _ _ _ _ _ Hs).
    cbn [orb].
    change (existsb _ (Contents_Keys entry))
      with (hasRealm (strategyParam (Stanzas input)) entry).
    destruct (hasRealm _ entry) eqn:Eh; [|apply IH].
    intros H. inversion H as [|? tok ? toks' Htok Hrest]; subst.
    unfold entryToken in Htok.
    destruct (json_Decode _) as [temp|err]; [|done].
    injection Htok as <-. rewrite (IH _ _ Hrest). by rewrite <- app_assoc.
Qed.

(** X6.  One payload that does not decode aborts the resolution: when
    the entries before it resolve and the entry carries the configured
    realm, [getTokens] exits fatally with the decoder's error and the
    offending payload in the message, and returns no token, not even
    those already resolved. *)
Theorem getTokens_decode_failure h input pre entry post toks err s :
  passwords h = Val (pre ++ entry :: post) ->
  strategyParam (Stanzas input) <> "" ->
  tokensOf (List.filter (hasRealm (strategyParam (Stanzas input))) pre) toks ->
  hasRealm (strategyParam (Stanzas input)) entry = true ->
  json_Decode (payload entry) = Err err ->
  getTokens h input s =
    (Fatal ("Failed to decode passwords from storage/passwords: "
            +:+ err +:+ nl +:+ " JSON to Decode: " +:+ payload entry +:+ nl),
     storeQueried input s).
Proof.
  intros Hp Hs Hpre Hr Hd. unfold getTokens.
  erewrite bind_Ok; [|reflexivity]. rewrite Hp.
  rewrite (scanEntries_app _ _ _ _ _ _ Hs Hpre). cbn [scanEntries].
  unfold bind. rewrite (scanKeys_run _ _ _ _ _ Hs). cbn [orb].
  change (existsb _ (Contents_Keys entry))
    with (hasRealm (strategyParam (Stanzas input)) entry).
  rewrite Hr. fold (payload entry). by rewrite Hd.
Qed.

Lemma scanEntries_skip input pre entry post result s :
  strategyParam (Stanzas input) <> "" ->
  hasRealm (strategyParam (Stanzas input)) entry = false ->
  scanEntries input (pre ++ entry :: post) result s
    = scanEntries input (pre ++ post) result s.
Proof.
  intros Hs Hr. revert result.
  induction pre as [|e pre IH]; intros result; cbn [app scanEntries].
  - unfold bind. rewrite (scanKeys_run _ _ _ _ _ Hs). cbn [orb].
    change (existsb _ (Contents_Keys entry))
      with (hasRealm (strategyParam (Stanzas input)) entry).
    by rewrite Hr.
  - unfold bind. rewrite (scanKeys_run _ _ _ _ _ Hs). cbn [orb].
    destruct (existsb _ (Contents_Keys e)); [|apply IH].
    destruct (json_Decode _); [apply IH|done].
Qed.

(** X7.  An entry without the configured realm plays no part: with a
    strategy configured, [getTokens] behaves the same, outcome and
    state, whether the store holds the entry or not.  In particular its
    payload is never decoded. *)
Theorem getTokens_ignores_other_realms h h' input pre entry post s :
  passwords h = Val (pre ++ entry :: post) ->
  passwords h' = Val (pre ++ post) ->
  strategyParam (Stanzas input) <> "" ->
  hasRealm (strategyParam (Stanzas input)) entry = false ->
  getTokens h input s = getTokens h' input s.
Proof.
  intros Hp Hp' Hs Hr. unfold getTokens, bind, splunk_GetEntities.
  rewrite Hp, Hp'. by rewrite (scanEntries_skip _ _ _ _ _ _ Hs Hr).
Qed.

Lemma scanKeys_no_strategy input keys b j s :
  strategyParam (Stanzas input) = "" ->
  scanKeys input keys b j s =
    if existsb (fun key => String.eqb (Key_Name key) "realm") keys
    then (Fatal "No strategy passed to Fitness Input", s)
    else (Ok (b, lastValue "clear_password" keys j), s).
Proof.
  intros Hs. revert b j. induction keys as [|key keys IH]; intros b j;
    cbn [scanKeys existsb]; [done|].
  rewrite lastValue_cons.
  destruct (String.eqb_spec (Key_Name key) "clear_password") as [->|Hcp].
  { cbn [String.eqb Ascii.eqb Bool.eqb orb]. apply IH. }
  destruct (String.eqb (Key_Name key) "realm"); cbn [orb]; [|apply IH].
  unfold bind, getStrategy. by rewrite Hs.
Qed.

Lemma scanEntries_no_strategy input entries result s :
  strategyParam (Stanzas input) = "" ->
  scanEntries input entries result s =
    (if existsb namesRealm entries
     then Fatal "No strategy passed to Fitness Input"
     else Ok result, s).
Proof.
  intros Hs. revert result. induction entries as [|entry entries IH]; intros result;
    cbn [scanEntries existsb]; [done|].
  unfold bind. rewrite (scanKeys_no_strategy _ _ _ _ _ Hs).
  unfold namesRealm at 1.
  destruct (existsb _ (Contents_Keys entry)); [done|]. cbn [orb]. apply IH.
Qed.

(** X8.  With no strategy configured, [getTokens] exits fatally with
    [No strategy passed to Fitness Input] as soon as some stored entry
    has an attribute called [realm]; when no entry has one it returns
    the empty sequence. *)
Theorem getTokens_without_strategy h input entries s :
  passwords h = Val entries ->
  strategyParam (Stanzas input) = "" ->
  getTokens h input s =
    (if existsb namesRealm entries
     then Fatal "No strategy passed to Fitness Input"
     else Ok [],
     storeQueried input s).
Proof.
  intros Hp Hs. unfold getTokens. erewrite bind_Ok; [|reflexivity]. rewrite Hp.
  apply (scanEntries_no_strategy _ _ _ _ Hs).
Qed.

End Tokens.

Section Checkpoints.
Context `{RT : Runtime}.

Lemma writeCheckPoint_eq h input p t g s :
  getCheckPointPath input = Some p ->
  GobEncode t = Val g ->
  writeCheckPoint h input t s =
    match write_error h p with
    | Some err =>
        (Fatal ("Error writing checkpoint file: " +:+ err +:+ nl),
         {| files := files s; ticks := ticks s;
            trace := trace s ++ [EvWriteFailed p] |})
    | None =>
        (Ok tt,
         {| files := <[p := g]> (files s); ticks := ticks s;
            trace := trace s ++ [EvWriteFile p g] |})
    end.
Proof.
  intros Hp He. unfold writeCheckPoint. rewrite He.
  erewrite bind_Ok; [|by apply checkPointPath_run].
  unfold bind, ioutil_WriteFile. by destruct (write_error h p).
Qed.

(** X9.  Resuming: after [writeCheckPoint] stored [t], the next
    [getTimes] starts the window exactly at [t] and ends it at the
    current time, reading the clock once and logging nothing, for any
    [t] the codec encodes and decodes back. *)
Theorem getTimes_resumes_at_checkpoint h input p t g s :
  getCheckPointPath input = Some p ->
  write_error h p = None ->
  GobEncode t = Val g ->
  GobDecode g = Val t ->
  exists s1 s2,
    writeCheckPoint h input t s = (Ok tt, s1)
    /\ getTimes h input s1 = (Ok (t, clock h (ticks s)), s2)
    /\ ticks s2 = S (ticks s)
    /\ files s2 = <[p := g]> (files s)
    /\ trace s2 = trace s ++ [EvWriteFile p g; EvReadFile p].
Proof.
  intros Hp Hw He Hd. rewrite (writeCheckPoint_eq _ _ _ _ _ _ Hp He), Hw.
  eexists _, _. split; [done|].
  rewrite (getTimes_eq _ _ _ _ Hp). cbn [files ticks trace].
  rewrite lookup_insert_eq, Hd. split; [done|]. cbn [files ticks trace].
  split; [done|]. split; [done|]. by rewrite <- app_assoc.
Qed.

(** X10.  First run: with no checkpoint file, [getTimes] returns
    (it does not fail), logs the read error, writes nothing, and reads
    the clock three times: the reading taken by [readCheckPoint] is
    dropped, the window runs from the second reading to the third. *)
Theorem getTimes_first_run h input p s :
  getCheckPointPath input = Some p ->
  files s !! p = None ->
  exists s',
    getTimes h input s = (Ok (clock h (S (ticks s)), clock h (S (S (ticks s)))), s')
    /\ files s' = files s
    /\ ticks s' = S (S (S (ticks s)))
    /\ trace s' =
         trace s
         ++ [EvReadFile p;
             EvLog ("Unable to read checkpoint file:"
                    +:+ ("open " +:+ p +:+ ": no such file or directory")
                    +:+ nl)].
Proof.
  intros Hp Hf. rewrite (getTimes_eq _ _ _ _ Hp), Hf.
  eexists. split; [done|]. cbn [files ticks trace].
  split; [done|]. split; [done|]. by rewrite <- app_assoc.
Qed.

(** X11.  The checkpoint file holds one timestamp: a second
    [writeCheckPoint] replaces the first, and [readCheckPoint] then
    returns the second timestamp only. *)
Theorem last_checkpoint_write_wins h input p t1 t2 g1 g2 s :
  getCheckPointPath input = Some p ->
  write_error h p = None ->
  GobEncode t1 = Val g1 ->
  GobEncode t2 = Val g2 ->
  GobDecode g2 = Val t2 ->
  exists s1 s2 s3,
    writeCheckPoint h input t1 s = (Ok tt, s1)
    /\ writeCheckPoint h input t2 s1 = (Ok tt, s2)
    /\ files s2 = <[p := g2]> (files s)
    /\ readCheckPoint h input s2 = (Ok (t2, None), s3).
Proof.
  intros Hp Hw He1 He2 Hd.
  rewrite (writeCheckPoint_eq _ _ _ _ _ _ Hp He1), Hw.
  eexists _, _, _. split; [done|].
  rewrite (writeCheckPoint_eq _ _ _ _ _ _ Hp He2), Hw. split; [done|].
  cbn [files]. rewrite insert_insert_eq. split; [done|].
  rewrite (readCheckPoint_eq _ _ _ _ Hp). cbn [files].
  by rewrite lookup_insert_eq, Hd.
Qed.

(** X12.  For [GoogleFitness], the part of the loop body before the
    checkpoint write, run for any credential on a file holding a
    decodable timestamp [t], queries the store, builds the client, reads
    the file, and calls [getData] with the window from [t] to the
    current time: where the window starts does not depend on the
    credential. *)
Theorem fetch_starts_at_shared_checkpoint h input entries p token g t s :
  passwords h = Val entries ->
  strategyParam (Stanzas input) = STRATEGY_GOOGLE ->
  getCheckPointPath input = Some p ->
  files s !! p = Some g ->
  GobDecode g = Val t ->
  fetch h input token s =
    (Ok (GoogleFitnessReader_getData t (clock h (ticks s)) (clientFor entries token)),
     {| files := files s; ticks := S (ticks s);
        trace := trace s
                 ++ [EvGetEntities (SessionKey input);
                     EvGetClient token (appEntries entries).1 (appEntries entries).2;
                     EvReadFile p;
                     EvGetData (clientFor entries token) t (clock h (ticks s))] |}).
Proof.
  intros Hpw Hs Hp Hf Hd.
  assert (Hne : strategyParam (Stanzas input) <> "") by by rewrite Hs.
  erewrite fetch_eq; [|done..|].
  2:{ rewrite (getTimes_eq _ _ _ _ Hp). cbn [clientBuilt files]. rewrite Hf, Hd.
      reflexivity. }
  rewrite Hs. cbn [String.eqb STRATEGY_GOOGLE Ascii.eqb Bool.eqb].
  cbn [clientBuilt files ticks trace]. by rewrite <- !app_assoc.
Qed.

(** X13.  For [GoogleFitness], with a defined path, a writable file
    and an encodable result, one round of the loop returns normally; the
    checkpoint file then holds the encoding of the timestamp [getData]
    returned in that round, and the round's last two events are that
    [getData] call and that write. *)
Theorem processToken_leaves_checkpoint h input entries p token s :
  passwords h = Val entries ->
  strategyParam (Stanzas input) = STRATEGY_GOOGLE ->
  getCheckPointPath input = Some p ->
  write_error h p = None ->
  (forall t, exists g, GobEncode t = Val g) ->
  exists startTime endTime g s',
    processToken h input token s = (Ok tt, s')
    /\ GobEncode (GoogleFitnessReader_getData startTime endTime
                    (clientFor entries token)) = Val g
    /\ files s' = <[p := g]> (files s)
    /\ exists evs,
         trace s' = trace s ++ evs
                    ++ [EvGetData (clientFor entries token) startTime endTime;
                        EvWriteFile p g].
Proof.
  intros Hpw Hs Hp Hw Henc.
  destruct (getTimes_quiet h input p (clientBuilt input entries token s) Hp)
    as (st & en & s1 & Ht & Hf & _ & _).
  assert (Hne : strategyParam (Stanzas input) <> "") by by rewrite Hs.
  destruct (Henc (GoogleFitnessReader_getData st en (clientFor entries token)))
    as [g Hg].
  exists st, en, g. unfold processToken.
  erewrite bind_Ok; [|by rewrite (fetch_eq _ _ _ _ _ _ _ _ Hpw Hne Ht), Hs].
  rewrite (writeCheckPoint_eq _ _ _ _ _ _ Hp Hg), Hw.
  eexists. split; [done|]. split; [done|]. cbn [files trace].
  split; [by rewrite Hf|].
  assert (Htr : tracing (getTimes h input)) by apply tracing_getTimes.
  destruct (Htr (clientBuilt input entries token s)) as [evs Hevs].
  rewrite Ht in Hevs. cbn [snd] in Hevs. rewrite Hevs. cbn [clientBuilt trace].
  exists ([EvGetEntities (SessionKey input);
           EvGetClient token (appEntries entries).1 (appEntries entries).2] ++ evs).
  by rewrite <- !app_assoc.
Qed.

End Checkpoints.

Section Runs.
Context `{RT : Runtime}.

Lemma getTimes_events h input p s :
  getCheckPointPath input = Some p ->
  exists startTime endTime s' evs,
    getTimes h input s = (Ok (startTime, endTime), s')
    /\ files s' = files s
    /\ trace s' = trace s ++ evs
    /\ Forall readOrLog evs.
Proof.
  intros Hp. rewrite (getTimes_eq _ _ _ _ Hp).
  destruct (files s !! p) as [b|]; [destruct (GobDecode b)|];
    eexists _, _, _, _; (split; [reflexivity|]); (split; [reflexivity|]);
    cbn [trace]; rewrite <- ?app_assoc; (split; [reflexivity|]);
    repeat constructor.
Qed.

(** One round of the loop for [GoogleFitness], seen through a projection
    of the events that ignores file reads and log lines. *)
Lemma processToken_google_events {X} (view : Event -> list X)
    h input entries p token s :
  (forall ev, readOrLog ev -> view ev = []) ->
  passwords h = Val entries ->
  strategyParam (Stanzas input) = STRATEGY_GOOGLE ->
  getCheckPointPath input = Some p ->
  write_error h p = None ->
  (forall t, exists g, GobEncode t = Val g) ->
  exists startTime endTime g s',
    processToken h input token s = (Ok tt, s')
    /\ flat_map view (trace s') =
         flat_map view (trace s)
         ++ view (EvGetEntities (SessionKey input))
         ++ view (EvGetClient token (appEntries entries).1 (appEntries entries).2)
         ++ view (EvGetData (clientFor entries token) startTime endTime)
         ++ view (EvWriteFile p g).
Proof.
  intros Hview Hpw Hs Hp Hw Henc.
  destruct (getTimes_events h input p (clientBuilt input entries token s) Hp)
    as (st & en & s1 & evs & Ht & Hf & Htr & Hq).
  assert (Hne : strategyParam (Stanzas input) <> "") by by rewrite Hs.
  destruct (Henc (GoogleFitnessReader_getData st en (clientFor entries token)))
    as [g Hg].
  exists st, en, g. unfold processToken.
  erewrite bind_Ok; [|by rewrite (fetch_eq _ _ _ _ _ _ _ _ Hpw Hne Ht), Hs].
  rewrite (writeCheckPoint_eq _ _ _ _ _ _ Hp Hg), Hw.
  eexists. split; [done|]. cbn [trace]. rewrite Htr. cbn [clientBuilt trace].
  rewrite !flat_map_app. cbn [flat_map]. rewrite !app_nil_r.
  assert (Hevs : flat_map view evs = []).
  { clear -Hview Hq. induction Hq as [|ev evs Hev _ IH]; [done|].
    cbn [flat_map]. by rewrite (Hview _ Hev), IH. }
  rewrite Hevs, app_nil_r. by rewrite <- !app_assoc.
Qed.

Lemma forEach_google_events {X} (view : Event -> list X)
    h input entries p toks s :
  (forall ev, readOrLog ev -> view ev = []) ->
  (forall c st en st' en', view (EvGetData c st en) = view (EvGetData c st' en')) ->
  (forall g g', view (EvWriteFile p g) = view (EvWriteFile p g')) ->
  passwords h = Val entries ->
  strategyParam (Stanzas input) = STRATEGY_GOOGLE ->
  getCheckPointPath input = Some p ->
  write_error h p = None ->
  (forall t, exists g, GobEncode t = Val g) ->
  exists s',
    forEach toks (processToken h input) s = (Ok tt, s')
    /\ flat_map view (trace s') =
         flat_map view (trace s)
         ++ flat_map
              (fun token =>
                 view (EvGetEntities (SessionKey input))
                 ++ view (EvGetClient token (appEntries entries).1
                                            (appEntries entries).2)
                 ++ view (EvGetData (clientFor entries token) 0 0)
                 ++ view (EvWriteFile p []))
              toks.
Proof.
  intros Hview Hd Hwv Hpw Hs Hp Hw Henc. revert s.
  induction toks as [|token toks IH]; intros s; cbn [forEach flat_map].
  - exists s. by rewrite app_nil_r.
  - destruct (processToken_google_events view h input entries p token s
                Hview Hpw Hs Hp Hw Henc) as (st & en & g & s1 & Hrun & Hv).
    destruct (IH s1) as (s' & Hrest & Hv').
    exists s'. erewrite bind_Ok; [|exact Hrun]. split; [done|].
    rewrite Hv', Hv, (Hd _ st en 0 0), (Hwv g []). by rewrite <- !app_assoc.
Qed.

(** X14.  A whole run for [GoogleFitness] over any number of resolved
    credentials, with a defined path, a writable file and encodable
    results: [StreamEvents] returns normally; it builds one client and
    calls [getData] once per credential, in store order, each call with
    the client of its own credential; it queries the store once for the
    tokens and once more for every credential; and it writes the
    checkpoint once per credential. *)
Theorem StreamEvents_google_run h config err s entries toks p :
  passwords h = Val entries ->
  strategyParam (Stanzas config) = STRATEGY_GOOGLE ->
  tokensOf (List.filter (hasRealm STRATEGY_GOOGLE) entries) toks ->
  getCheckPointPath config = Some p ->
  write_error h p = None ->
  (forall t, exists g, GobEncode t = Val g) ->
  exists s',
    StreamEvents h config err s = (Ok tt, s')
    /\ built_clients (trace s') =
         built_clients (trace s) ++ map (clientFor entries) toks
    /\ getData_clients (trace s') =
         getData_clients (trace s) ++ map (clientFor entries) toks
    /\ store_queries (trace s') = (store_queries (trace s) + 1 + length toks)%nat
    /\ checkpoint_writes (trace s') = (checkpoint_writes (trace s) + length toks)%nat.
Proof.
  intros Hpw Hs Htoks Hp Hw Henc.
  assert (Hne : strategyParam (Stanzas config) <> "") by by rewrite Hs.
  rewrite <- Hs in Htoks.
  rewrite StreamEvents_eq.
  erewrite bind_Ok; [|by eapply getTokens_run].
  set (s0 := {| files := files (configRead err s); ticks := ticks (configRead err s);
                trace := trace (configRead err s)
                         ++ [EvGetEntities (SessionKey config)] |}).
  assert (Hrun : exists s', forEach toks (processToken h config) s0 = (Ok tt, s')
      /\ forall X (view : Event -> list X),
           (forall ev, readOrLog ev -> view ev = []) ->
           (forall c st en st' en',
              view (EvGetData c st en) = view (EvGetData c st' en')) ->
           (forall g g', view (EvWriteFile p g) = view (EvWriteFile p g')) ->
           flat_map view (trace s') =
             flat_map view (trace s)
             ++ view (EvGetEntities (SessionKey config))
             ++ flat_map
                  (fun token =>
                     view (EvGetEntities (SessionKey config))
                     ++ view (EvGetClient token (appEntries entries).1
                                                (appEntries entries).2)
                     ++ view (EvGetData (clientFor entries token) 0 0)
                     ++ view (EvWriteFile p []))
                  toks).
  { destruct (forEach_google_events (fun _ => @nil unit) h config entries p toks s0)
      as (s' & Hrun & _); try done.
    exists s'. split; [done|]. intros X view Hview Hd Hwv.
    destruct (forEach_google_events view h config entries p toks s0
                Hview Hd Hwv Hpw Hs Hp Hw Henc) as (s'' & Hrun' & Hv).
    rewrite Hrun in Hrun'. injection Hrun' as <-. rewrite Hv.
    unfold s0. cbn [trace]. rewrite flat_map_app. cbn [flat_map].
    rewrite app_nil_r, <- !app_assoc. f_equal.
    destruct err; [|done]. cbn [configRead trace]. rewrite flat_map_app.
    cbn [flat_map]. by rewrite (Hview (EvLog _) I), !app_nil_r. }
  destruct Hrun as (s' & Hrun & Hv). exists s'. split; [done|].
  split; [|split; [|split]].
  - unfold built_clients. rewrite Hv; [|by intros [] Hev; cbn in *|done..]. apply (f_equal (app _)).
    cbn [app]. clear. induction toks as [|t toks IH]; [done|].
    cbn [flat_map map app]. by rewrite IH.
  - unfold getData_clients. rewrite Hv; [|by intros [] Hev; cbn in *|done..]. apply (f_equal (app _)).
    cbn [app]. clear. induction toks as [|t toks IH]; [done|].
    cbn [flat_map map app]. by rewrite IH.
  - unfold store_queries. rewrite Hv; [|by intros [] Hev; cbn in *|done..].
    rewrite !length_app.
    match goal with |- context [length (flat_map ?f toks)] =>
      assert (Hl : length (flat_map f toks) = length toks)
        by (clear; induction toks as [|t toks IH]; [done|]; cbn in *; congruence) end.
    rewrite Hl. cbn [length]. lia.
  - unfold checkpoint_writes. rewrite Hv; [|by intros [] Hev; cbn in *|done..].
    rewrite !length_app.
    match goal with |- context [length (flat_map ?f toks)] =>
      assert (Hl : length (flat_map f toks) = length toks)
        by (clear; induction toks as [|t toks IH]; [done|]; cbn in *; congruence) end.
    rewrite Hl. cbn [length]. lia.
Qed.

End Runs.

Create HintDb keeps.

Section Frame.
Context `{RT : Runtime}.
Variable q : string.

Lemma keeps_ret {A} (a : A) : keeps q (ret a).
Proof. by intros s. Qed.

Lemma keeps_log_Fatal {A} msg : keeps q (@log_Fatal _ A msg).
Proof. by intros s. Qed.

Lemma keeps_panic {A} msg : keeps q (@panic _ A msg).
Proof. by intros s. Qed.

Lemma keeps_emit ev : keeps q (emit ev).
Proof. by intros s. Qed.

Lemma keeps_time_Now h : keeps q (time_Now h).
Proof. by intros s. Qed.

Lemma keeps_ReadFile path : keeps q (ioutil_ReadFile path).
Proof. by intros s. Qed.

Lemma keeps_GetEntities h key : keeps q (splunk_GetEntities h key).
Proof. by intros s. Qed.

Lemma keeps_WriteFile h path data :
  path <> q -> keeps q (ioutil_WriteFile h path data).
Proof.
  intros Hne s. unfold ioutil_WriteFile.
  destruct (write_error h path); [done|]. cbn. by rewrite lookup_insert_ne.
Qed.

Lemma keeps_bind {A B} (m : M A) (k : A -> M B) :
  keeps q m -> (forall a, keeps q (k a)) -> keeps q (bind m k).
Proof.
  intros Hm Hk s. unfold bind. specialize (Hm s).
  destruct (m s) as [[a| |] s1]; cbn [snd] in *; [|done..].
  by rewrite (Hk a s1).
Qed.

#[local] Hint Resolve keeps_ret keeps_log_Fatal keeps_panic keeps_emit
  keeps_time_Now keeps_ReadFile keeps_GetEntities : keeps.

Ltac solve_keeps :=
  repeat first
    [ progress auto with keeps
    | apply keeps_bind; [|intros ?]
    | match goal with
      | |- keeps _ (match ?x with _ => _ end) => destruct x
      end ].

Lemma keeps_getStrategy input : keeps q (getStrategy input).
Proof. unfold getStrategy. solve_keeps. Qed.
#[local] Hint Resolve keeps_getStrategy : keeps.

Lemma keeps_scanEntries input entries result :
  keeps q (scanEntries input entries result).
Proof. intros s. by rewrite scanEntries_state. Qed.
#[local] Hint Resolve keeps_scanEntries : keeps.

Lemma keeps_getTokens h input : keeps q (getTokens h input).
Proof. unfold getTokens. solve_keeps. Qed.

Lemma keeps_getAppCredentials h input : keeps q (getAppCredentials h input).
Proof. unfold getAppCredentials. solve_keeps. Qed.

Lemma keeps_checkPointPath input : keeps q (checkPointPath input).
Proof. unfold checkPointPath. solve_keeps. Qed.
#[local] Hint Resolve keeps_getTokens keeps_getAppCredentials
  keeps_checkPointPath : keeps.

Lemma keeps_readCheckPoint h input : keeps q (readCheckPoint h input).
Proof. unfold readCheckPoint, log_Printf. solve_keeps. Qed.
#[local] Hint Resolve keeps_readCheckPoint : keeps.

Lemma keeps_getTimes h input : keeps q (getTimes h input).
Proof. unfold getTimes. solve_keeps. Qed.

Lemma keeps_getReaderStrategy input startTime endTime :
  keeps q (getReaderStrategy input startTime endTime).
Proof. unfold getReaderStrategy. solve_keeps. Qed.

Lemma keeps_getData reader client : keeps q (getData reader client).
Proof. unfold getData. solve_keeps. Qed.
#[local] Hint Resolve keeps_getTimes keeps_getReaderStrategy keeps_getData : keeps.

Lemma keeps_writeCheckPoint h input t :
  getCheckPointPath input <> Some q -> keeps q (writeCheckPoint h input t).
Proof.
  intros Hq. unfold writeCheckPoint, checkPointPath.
  destruct (GobEncode t) as [g|e]; [|solve_keeps].
  destruct (getCheckPointPath input) as [p|]; [|by intros s].
  intros s. unfold bind, ret, ioutil_WriteFile.
  destruct (write_error h p); cbn; [done|].
  rewrite lookup_insert_ne; [done|]. congruence.
Qed.
#[local] Hint Resolve keeps_writeCheckPoint : keeps.

Lemma keeps_processToken h input token :
  getCheckPointPath input <> Some q -> keeps q (processToken h input token).
Proof. intros Hq. unfold processToken, fetch. solve_keeps. Qed.

Lemma keeps_forEach {A} (l : list A) (body : A -> M unit) :
  (forall x, keeps q (body x)) -> keeps q (forEach l body).
Proof. intros H. induction l as [|x l IH]; cbn [forEach]; solve_keeps. Qed.

(** X15.  Whatever the outcome of the run, [StreamEvents] changes no
    file other than the one at the checkpoint path. *)
Theorem StreamEvents_writes_only_checkpoint h config err s :
  getCheckPointPath config <> Some q ->
  files (snd (StreamEvents h config err s)) !! q = files s !! q.
Proof.
  intros Hq. rewrite StreamEvents_eq.
  assert (Hk : keeps q (bind (getTokens h config)
                          (fun tokens => forEach tokens (processToken h config)))).
  { apply keeps_bind; [solve_keeps|]. intros tokens.
    apply keeps_forEach. intros token. by apply keeps_processToken. }
  rewrite Hk. by destruct err.
Qed.

End Frame.

Section Failures.
Context `{RT : Runtime}.

(** X16.  When the checkpoint path is undefined and at least one
    credential was resolved, [StreamEvents] panics with an index out of
    range while computing the window of the first credential: after the
    store was queried for the app credentials and the client built,
    before any fetch. *)
Theorem StreamEvents_undefined_path_panics h config err s token rest s0 :
  getTokens h config (configRead err s) = (Ok (token :: rest), s0) ->
  getCheckPointPath config = None ->
  exists entries,
    passwords h = Val entries
    /\ StreamEvents h config err s =
         (Panic "runtime error: index out of range",
          clientBuilt config entries token s0).
Proof.
  intros Htok Hp. destruct (getTokens_inv _ _ _ _ _ Htok) as [_ (entries & Hpw & _)].
  exists entries. split; [done|].
  rewrite StreamEvents_eq. erewrite bind_Ok; [|exact Htok]. cbn [forEach].
  unfold bind at 1. unfold processToken. unfold bind at 1. unfold fetch.
  unfold bind at 1. rewrite getAppCredentials_eq, Hpw.
  unfold clientBuilt. destruct (appEntries entries) as [clientId clientSecret].
  cbv beta iota. unfold bind at 1. unfold emit at 1.
  unfold bind at 1. unfold getTimes. unfold bind at 1.
  by rewrite readCheckPoint_undefined_path.
Qed.


End Failures.

Create HintDb orderly.

Section Ordering.
Context `{RT : Runtime}.

Lemma writesFollowFetch_app b evs1 evs2 :
  writesFollowFetch b (evs1 ++ evs2) =
    writesFollowFetch b evs1 && writesFollowFetch (lastFetch b evs1) evs2.
Proof.
  revert b. induction evs1 as [|ev evs1 IH]; intros b; [done|].
  cbn [app writesFollowFetch lastFetch fold_left]. rewrite IH.
  by rewrite andb_assoc.
Qed.

Lemma lastFetch_app b evs1 evs2 :
  lastFetch b (evs1 ++ evs2) = lastFetch (lastFetch b evs1) evs2.
Proof. apply fold_left_app. Qed.

Lemma lastFetch_mono b evs : lastFetch false evs = true -> lastFetch b evs = true.
Proof.
  destruct evs as [|ev evs]; [done|]. by cbn [lastFetch fold_left].
Qed.

Lemma orderly_quiet {A} (m : M A) :
  (forall s, trace (snd (m s)) = trace s) -> orderly m.
Proof. intros H s. exists []. by rewrite app_nil_r. Qed.

Lemma orderly_ret {A} (a : A) : orderly (ret a).
Proof. by apply orderly_quiet. Qed.

Lemma orderly_log_Fatal {A} msg : orderly (@log_Fatal _ A msg).
Proof. by apply orderly_quiet. Qed.

Lemma orderly_panic {A} msg : orderly (@panic _ A msg).
Proof. by apply orderly_quiet. Qed.

Lemma orderly_time_Now h : orderly (time_Now h).
Proof. by apply orderly_quiet. Qed.

Lemma orderly_emit ev : isWrite ev = false -> orderly (emit ev).
Proof.
  intros H s. exists [ev]. split; [done|]. intros b.
  cbn [writesFollowFetch]. by rewrite H.
Qed.

Lemma orderly_ReadFile path : orderly (ioutil_ReadFile path).
Proof. intros s. exists [EvReadFile path]. by split. Qed.

Lemma orderly_GetEntities h key : orderly (splunk_GetEntities h key).
Proof. intros s. exists [EvGetEntities key]. by split. Qed.

Lemma orderly_bind {A B} (m : M A) (k : A -> M B) :
  orderly m -> (forall a, orderly (k a)) -> orderly (bind m k).
Proof.
  intros Hm Hk s. unfold bind. destruct (Hm s) as (evs1 & H1 & Hw1).
  destruct (m s) as [[a| |] s1]; cbn [snd] in *; [|by exists evs1..].
  destruct (Hk a s1) as (evs2 & H2 & Hw2). exists (evs1 ++ evs2).
  split; [by rewrite H2, H1, app_assoc|]. intros b.
  by rewrite writesFollowFetch_app, Hw1, Hw2.
Qed.

#[local] Hint Resolve orderly_ret orderly_log_Fatal orderly_panic
  orderly_time_Now orderly_ReadFile orderly_GetEntities : orderly.

Ltac solve_orderly :=
  repeat first
    [ progress auto with orderly
    | apply orderly_emit; reflexivity
    | apply orderly_bind; [|intros ?]
    | match goal with
      | |- orderly (match ?x with _ => _ end) => destruct x
      end ].

Lemma orderly_scanEntries input entries result :
  orderly (scanEntries input entries result).
Proof. apply orderly_quiet. intros s. by rewrite scanEntries_state. Qed.
#[local] Hint Resolve orderly_scanEntries : orderly.

Lemma orderly_getTokens h input : orderly (getTokens h input).
Proof. unfold getTokens. solve_orderly. Qed.

Lemma orderly_getAppCredentials h input : orderly (getAppCredentials h input).
Proof. unfold getAppCredentials. solve_orderly. Qed.

Lemma orderly_getStrategy input : orderly (getStrategy input).
Proof. unfold getStrategy. solve_orderly. Qed.

Lemma orderly_checkPointPath input : orderly (checkPointPath input).
Proof. unfold checkPointPath. solve_orderly. Qed.
#[local] Hint Resolve orderly_getTokens orderly_getAppCredentials
  orderly_getStrategy orderly_checkPointPath : orderly.

Lemma orderly_readCheckPoint h input : orderly (readCheckPoint h input).
Proof. unfold readCheckPoint, log_Printf. solve_orderly. Qed.
#[local] Hint Resolve orderly_readCheckPoint : orderly.

Lemma orderly_getTimes h input : orderly (getTimes h input).
Proof. unfold getTimes. solve_orderly. Qed.

Lemma orderly_getReaderStrategy input startTime endTime :
  orderly (getReaderStrategy input startTime endTime).
Proof. unfold getReaderStrategy. solve_orderly. Qed.
#[local] Hint Resolve orderly_getTimes orderly_getReaderStrategy : orderly.

Lemma endsFetched_bind {A B} (m : M A) (k : A -> M B) :
  orderly m -> (forall a, endsFetched (k a)) -> endsFetched (bind m k).
Proof.
  intros Hm Hk s. unfold bind. destruct (Hm s) as (evs1 & H1 & Hw1).
  destruct (m s) as [[a| |] s1]; cbn [snd] in *;
    [|by exists evs1; cbn..].
  destruct (Hk a s1) as (evs2 & H2 & Hw2 & Hl). exists (evs1 ++ evs2).
  split; [by rewrite H2, H1, app_assoc|]. split.
  - intros b. by rewrite writesFollowFetch_app, Hw1, Hw2.
  - intros b Hb. rewrite lastFetch_app. apply lastFetch_mono. by eapply Hl.
Qed.

Lemma endsFetched_getData reader client : endsFetched (getData reader client).
Proof.
  intros s. destruct reader as [startTime endTime].
  exists [EvGetData client startTime endTime]. by cbn.
Qed.

Lemma endsFetched_fetch h input token : endsFetched (fetch h input token).
Proof.
  unfold fetch.
  apply endsFetched_bind; [solve_orderly|]. intros [clientId clientSecret].
  apply endsFetched_bind; [solve_orderly|]. intros _.
  apply endsFetched_bind; [solve_orderly|]. intros [startTime endTime].
  apply endsFetched_bind; [solve_orderly|]. intros [reader|err].
  - apply endsFetched_getData.
  - intros s. exists []. cbn. by rewrite app_nil_r.
Qed.

Lemma writeCheckPoint_one_write h input t s :
  exists evs,
    trace (snd (writeCheckPoint h input t s)) = trace s ++ evs
    /\ writesFollowFetch true evs = true.
Proof.
  unfold writeCheckPoint, checkPointPath.
  destruct (GobEncode t) as [g|e]; [|by exists []; cbn; rewrite app_nil_r].
  destruct (getCheckPointPath input) as [p|];
    [|by exists []; cbn; rewrite app_nil_r].
  unfold bind, ret, ioutil_WriteFile.
  destruct (write_error h p); by eexists [_].
Qed.

Lemma orderly_processToken h input token : orderly (processToken h input token).
Proof.
  intros s. unfold processToken, bind.
  destruct (endsFetched_fetch h input token s) as (evs1 & H1 & Hw1 & Hl).
  destruct (fetch h input token s) as [[t| |] s1]; cbn [fst snd] in *;
    [|by exists evs1..].
  destruct (writeCheckPoint_one_write h input t s1) as (evs2 & H2 & Hw2).
  exists (evs1 ++ evs2). split; [by rewrite H2, H1, app_assoc|]. intros b.
  rewrite writesFollowFetch_app, Hw1.
  by rewrite (lastFetch_mono b _ (Hl t eq_refl)).
Qed.
#[local] Hint Resolve orderly_processToken : orderly.

Lemma orderly_forEach {A} (l : list A) (body : A -> M unit) :
  (forall x, orderly (body x)) -> orderly (forEach l body).
Proof. intros H. induction l as [|x l IH]; cbn [forEach]; solve_orderly. Qed.

(** What [writesFollowFetch] says about each write. *)
Lemma writesFollowFetch_before b evs pre ev post :
  writesFollowFetch b evs = true ->
  evs = pre ++ ev :: post ->
  isWrite ev = true ->
  lastFetch b pre = true.
Proof.
  intros Hw -> Hev. rewrite writesFollowFetch_app in Hw.
  apply andb_prop in Hw as [_ Hw]. cbn [writesFollowFetch] in Hw.
  rewrite Hev in Hw. by apply andb_prop in Hw as [Hw _].
Qed.

Lemma lastFetch_snoc pre :
  lastFetch false pre = true ->
  exists pre' client startTime endTime,
    pre = pre' ++ [EvGetData client startTime endTime].
Proof.
  destruct pre as [|ev pre _] using rev_ind; [done|].
  rewrite lastFetch_app. cbn [lastFetch fold_left].
  destruct ev; try done. eauto.
Qed.

(** X18.  In every run of [StreamEvents], whatever its outcome, each
    write of the checkpoint file (done or refused) comes directly after
    a call of [getData]. *)
Theorem checkpoint_write_follows_fetch h config err s pre ev post :
  trace (snd (StreamEvents h config err s)) = trace s ++ pre ++ ev :: post ->
  isWrite ev = true ->
  exists pre' client startTime endTime,
    pre = pre' ++ [EvGetData client startTime endTime].
Proof.
  intros Htr Hev.
  assert (Ho : orderly (StreamEvents h config err)).
  { unfold StreamEvents, log_Printf.
    apply orderly_bind; [solve_orderly|]. intros _.
    apply orderly_bind; [solve_orderly|]. intros tokens.
    apply orderly_forEach. intros token.
    pose proof (orderly_processToken h config token) as Hp.
    intros s0. destruct (Hp s0) as (evs & He & Hw). exists evs.
    split; [|done]. rewrite <- He. f_equal.
    clear. unfold processToken, fetch, bind.
    destruct (getAppCredentials h config s0) as [[[clientId clientSecret]| |] s1];
      try done.
    destruct (emit _ s1) as [[[]| |] s2]; try done.
    destruct (getTimes h config s2) as [[[startTime endTime]| |] s3]; try done.
    destruct (getReaderStrategy _ _ _ s3) as [[[reader|e]| |] s4]; try done. }
  destruct (Ho s) as (evs & He & Hw). rewrite He in Htr.
  apply app_inv_head in Htr. apply lastFetch_snoc.
  by apply (writesFollowFetch_before false evs pre ev post).
Qed.

End Ordering.

Create HintDb oblivious.

Section PathAgain.
Context `{RT : Runtime}.

Lemma slice_from_append pre s :
  slice_from (String.length pre) (pre +:+ s) = s.
Proof. induction pre as [|c pre IH]; [by destruct s|]. by rewrite append_String. Qed.

Lemma slice_to_append pre s :
  slice_to (String.length pre) (pre +:+ s) = pre.
Proof.
  induction pre as [|c pre IH]; [by destruct s|].
  rewrite append_String. cbn. by rewrite IH.
Qed.

Lemma append_assoc s1 s2 s3 : (s1 +:+ s2) +:+ s3 = s1 +:+ s2 +:+ s3.
Proof.
  induction s1 as [|c s1 IH]; [done|]. rewrite !append_String. by rewrite IH.
Qed.

(** X19.  Only the segment between the first [://] and the next one
    names the checkpoint file: however the first stanza's name reads as
    [pre://seg tail] (first separator after [pre], [seg] without
    separator, [tail] empty or starting at the next separator), the
    path is [path.Join(CheckpointDir, seg)].  Names that differ only in
    [pre] or [tail] share one checkpoint file. *)
Theorem getCheckPointPath_of_decomposition input stanza rest pre seg tail :
  Stanzas input = stanza :: rest ->
  StanzaName stanza = pre +:+ "://" +:+ seg +:+ tail ->
  Index (StanzaName stanza) "://" = Some (String.length pre) ->
  Contains seg "://" = false ->
  tail = "" \/ Index (seg +:+ tail) "://" = Some (String.length seg) ->
  getCheckPointPath input = Some (path_Join (CheckpointDir input) seg).
Proof.
  intros Hst Hname Hi Hseg Htail. unfold getCheckPointPath. rewrite Hst.
  cbn [lookup list_lookup]. rewrite (Split_second _ _ _ sep_nonempty Hi). cbn zeta.
  assert (Hrest : slice_from (String.length pre + String.length "://")
                    (StanzaName stanza) = seg +:+ tail).
  { rewrite Hname, <- append_assoc.
    replace (String.length pre + String.length "://")%nat
      with (String.length (pre +:+ "://")) by apply length_append.
    apply slice_from_append. }
  rewrite Hrest. destruct Htail as [->|Hk].
  - rewrite append_empty_r. unfold Contains in Hseg.
    by destruct (Index seg "://").
  - rewrite Hk. by rewrite slice_to_append.
Qed.

End PathAgain.

Section Oblivious.
Context `{RT : Runtime}.

Lemma oblivious_ret {A} (a : A) : oblivious (ret a).
Proof. intros s. exists (Ok a), s, []. intros T. by rewrite app_nil_r. Qed.

Lemma oblivious_log_Fatal {A} msg : oblivious (@log_Fatal _ A msg).
Proof. intros s. exists (Fatal msg), s, []. intros T. by rewrite app_nil_r. Qed.

Lemma oblivious_panic {A} msg : oblivious (@panic _ A msg).
Proof. intros s. exists (Panic msg), s, []. intros T. by rewrite app_nil_r. Qed.

Lemma oblivious_emit ev : oblivious (emit ev).
Proof. intros s. by exists (Ok tt), s, [ev]. Qed.

Lemma oblivious_time_Now h : oblivious (time_Now h).
Proof.
  intros s.
  exists (Ok (clock h (ticks s))),
    {| files := files s; ticks := S (ticks s); trace := [] |}, [].
  intros T. unfold time_Now, retrace. cbn. by rewrite app_nil_r.
Qed.

Lemma oblivious_ReadFile path : oblivious (ioutil_ReadFile path).
Proof.
  intros s.
  by exists (Ok match files s !! path with
                | Some b => Val b
                | None => Err ("open " +:+ path +:+ ": no such file or directory")
                end), s, [EvReadFile path].
Qed.

Lemma oblivious_WriteFile h path data : oblivious (ioutil_WriteFile h path data).
Proof.
  intros s. unfold ioutil_WriteFile. destruct (write_error h path).
  - by exists (Ok (Some e)), s, [EvWriteFailed path].
  - by exists (Ok None),
      {| files := <[path := data]> (files s); ticks := ticks s; trace := [] |},
      [EvWriteFile path data].
Qed.

Lemma oblivious_GetEntities h key : oblivious (splunk_GetEntities h key).
Proof. intros s. by exists (Ok (passwords h)), s, [EvGetEntities key]. Qed.

Lemma oblivious_bind {A B} (m : M A) (k : A -> M B) :
  oblivious m -> (forall a, oblivious (k a)) -> oblivious (bind m k).
Proof.
  intros Hm Hk s. destruct (Hm s) as (o1 & s1 & evs1 & H1).
  destruct o1 as [a| |].
  - destruct (Hk a s1) as (o2 & s2 & evs2 & H2).
    exists o2, s2, (evs1 ++ evs2). intros T. unfold bind. rewrite H1.
    change (retrace (T ++ evs1) s1) with (retrace (T ++ evs1) (retrace [] s1)).
    change (k a (retrace (T ++ evs1) (retrace [] s1)))
      with (k a (retrace (T ++ evs1) s1)).
    by rewrite H2, app_assoc.
  - exists (Fatal msg), s1, evs1. intros T. unfold bind. by rewrite H1.
  - exists (Panic msg), s1, evs1. intros T. unfold bind. by rewrite H1.
Qed.

#[local] Hint Resolve oblivious_ret oblivious_log_Fatal oblivious_panic
  oblivious_emit oblivious_time_Now oblivious_ReadFile oblivious_WriteFile
  oblivious_GetEntities : oblivious.

Ltac solve_oblivious :=
  repeat first
    [ progress auto with oblivious
    | apply oblivious_bind; [|intros ?]
    | match goal with
      | |- oblivious (match ?x with _ => _ end) => destruct x
      end ].

Lemma oblivious_getStrategy input : oblivious (getStrategy input).
Proof. unfold getStrategy. solve_oblivious. Qed.
#[local] Hint Resolve oblivious_getStrategy : oblivious.

Lemma oblivious_scanKeys input keys b j : oblivious (scanKeys input keys b j).
Proof.
  revert b j. induction keys as [|key keys IH]; intros b j; cbn [scanKeys];
    solve_oblivious.
Qed.
#[local] Hint Resolve oblivious_scanKeys : oblivious.

Lemma oblivious_scanEntries input entries result :
  oblivious (scanEntries input entries result).
Proof.
  revert result. induction entries as [|entry entries IH]; intros result;
    cbn [scanEntries]; solve_oblivious.
Qed.
#[local] Hint Resolve oblivious_scanEntries : oblivious.

Lemma oblivious_getTokens h input : oblivious (getTokens h input).
Proof. unfold getTokens. solve_oblivious. Qed.

Lemma oblivious_getAppCredentials h input : oblivious (getAppCredentials h input).
Proof. unfold getAppCredentials. solve_oblivious. Qed.

Lemma oblivious_checkPointPath input : oblivious (checkPointPath input).
Proof. unfold checkPointPath. solve_oblivious. Qed.
#[local] Hint Resolve oblivious_getTokens oblivious_getAppCredentials
  oblivious_checkPointPath : oblivious.

Lemma oblivious_writeCheckPoint h input t : oblivious (writeCheckPoint h input t).
Proof. unfold writeCheckPoint. solve_oblivious. Qed.

Lemma oblivious_readCheckPoint h input : oblivious (readCheckPoint h input).
Proof. unfold readCheckPoint, log_Printf. solve_oblivious. Qed.
#[local] Hint Resolve oblivious_writeCheckPoint oblivious_readCheckPoint : oblivious.

Lemma oblivious_getTimes h input : oblivious (getTimes h input).
Proof. unfold getTimes. solve_oblivious. Qed.

Lemma oblivious_getReaderStrategy input startTime endTime :
  oblivious (getReaderStrategy input startTime endTime).
Proof. unfold getReaderStrategy. solve_oblivious. Qed.

Lemma oblivious_getData reader client : oblivious (getData reader client).
Proof. unfold getData. solve_oblivious. Qed.
#[local] Hint Resolve oblivious_getTimes oblivious_getReaderStrategy
  oblivious_getData : oblivious.

Lemma oblivious_processToken h input token : oblivious (processToken h input token).
Proof. unfold processToken, fetch. solve_oblivious. Qed.
#[local] Hint Resolve oblivious_processToken : oblivious.



(** X21.  When the store cannot be queried, [StreamEvents] exits
    fatally with [Unable to get user tokens from Splunk] right after
    that one query: no client, no fetch, no checkpoint access. *)
Theorem StreamEvents_store_failure h config err e s :
  passwords h = Err e ->
  StreamEvents h config err s =
    (Fatal ("Unable to get user tokens from Splunk: " +:+ e +:+ nl),
     storeQueried config (configRead err s)).
Proof.
  intros Hp. rewrite StreamEvents_eq. unfold bind at 1, getTokens.
  erewrite bind_Ok; [|reflexivity]. by rewrite Hp.
Qed.

End Oblivious.

(** * Runs on sample inputs *)

#[local] Existing Instance sampleRuntime.

Example getCheckPointPath_sample :
  getCheckPointPath (sampleConfig "GoogleFitness") = Some "/ckpt/google".
Proof. reflexivity. Qed.

Example getCheckPointPath_no_stanza :
  getCheckPointPath {| SessionKey := "session"; CheckpointDir := "/ckpt"; Stanzas := [] |}
    = None.
Proof. reflexivity. Qed.

Example getCheckPointPath_no_separator :
  getCheckPointPath
    {| SessionKey := "session"; CheckpointDir := "/ckpt";
       Stanzas := [ {| StanzaName := "google"; Params := [] |} ] |} = None.
Proof. reflexivity. Qed.

Example UnmarshalBinary_rejects :
  TimeWire.UnmarshalBinary [] = Err "Time.UnmarshalBinary: no data"
  /\ TimeWire.UnmarshalBinary [2; 0;0;0;14;119;145;247;0; 0;0;0;0; 255;255]
       = Err "Time.UnmarshalBinary: unsupported version"
  /\ TimeWire.UnmarshalBinary [1; 0;0;0;14;119;145;247;0; 0;0;0;0]
       = Err "Time.UnmarshalBinary: invalid length".
Proof. repeat split. Qed.

(** With the wire format above as the gob codec, a checkpoint survives
    the file for every instant whose seconds fit an [int64]. *)
Lemma sample_checkpoint_survives h t s :
  write_error h "/ckpt/google" = None ->
  - 2 ^ 63 <= TimeWire.sec t < 2 ^ 63 ->
  exists s1 s2,
    writeCheckPoint h (sampleConfig "GoogleFitness") t s = (Ok tt, s1)
    /\ readCheckPoint h (sampleConfig "GoogleFitness") s1 = (Ok (t, None), s2).
Proof.
  intros Hw Hsec.
  destruct (TimeWire.MarshalBinary t) as [g|e] eqn:Hg; [|discriminate].
  pose proof (TimeWireFacts.UnmarshalBinary_MarshalBinary t g Hsec Hg) as Hd.
  unfold writeCheckPoint. change (GobEncode t) with (TimeWire.MarshalBinary t).
  rewrite Hg.
  erewrite bind_Ok; [|by apply (checkPointPath_run _ "/ckpt/google")].
  unfold bind, ioutil_WriteFile. rewrite Hw.
  eexists _, _. split; [done|].
  rewrite (readCheckPoint_eq _ _ "/ckpt/google") by done. cbn [files].
  rewrite lookup_insert_eq.
  change (GobDecode g) with (TimeWire.UnmarshalBinary g). by rewrite Hd.
Qed.

(** A checkpoint file holding the single byte [0] does not decode:
    [readCheckPoint] answers two hours before the first clock reading,
    [getTimes] starts the window at the second reading. *)
Lemma getTimes_corrupt_checkpoint_witness :
  exists s1 s2,
    readCheckPoint (sampleHost []) (sampleConfig "GoogleFitness") (checkpointed [0]) =
      (Ok (1466521200000000000 - 7200000000000,
           Some "Time.UnmarshalBinary: unsupported version"), s1)
    /\ getTimes (sampleHost []) (sampleConfig "GoogleFitness") (checkpointed [0]) =
         (Ok (1466521200001000000, 1466521200002000000), s2).
Proof.
  exact (getTimes_corrupt_checkpoint (sampleHost []) (sampleConfig "GoogleFitness")
           "/ckpt/google" [0]
           "Time.UnmarshalBinary: unsupported version" (checkpointed [0])
           eq_refl eq_refl eq_refl).
Defined.

(** With two [FitBit] credentials stored and [FitBit] configured,
    [getReaderStrategy] answers an error and the run ends fatally
    without a single [getData]. *)
Lemma fitbit_has_no_strategy :
  fst (getReaderStrategy (sampleConfig "FitBit") 0 1 emptyState)
    = Ok (Err "Unsupported reader requested: FitBit")
  /\ fst (StreamEvents (sampleHost [sampleAppEntry; alice "FitBit"; bob "FitBit"])
            (sampleConfig "FitBit") None emptyState)
       = Fatal "Unsupported reader requested: FitBit"
  /\ ~ (exists s',
           StreamEvents (sampleHost [sampleAppEntry; alice "FitBit"; bob "FitBit"])
             (sampleConfig "FitBit") None emptyState = (Ok tt, s')
           /\ length (getData_clients (trace s')) = 2%nat).
Proof.
  split; [vm_compute; reflexivity|].
  split; [vm_compute; reflexivity|].
  intros (s' & H & _). apply (f_equal fst) in H. vm_compute in H. discriminate.
Qed.

Lemma two_stored_credentials_witness :
  (exists s',
      StreamEvents (sampleHost [sampleAppEntry; alice "FitBit"; bob "FitBit"])
        (sampleConfig "FitBit") None emptyState
        = (Fatal "Unsupported reader requested: FitBit", s')
      /\ getData_clients (trace s') = [])
  /\ (exists s',
         StreamEvents
           (sampleHost [sampleAppEntry; alice "GoogleFitness"; bob "FitBit";
                        bob "GoogleFitness"])
           (sampleConfig "GoogleFitness") None emptyState = (Ok tt, s')
         /\ getData_clients (trace s') =
              [(tokenA, "42.apps.googleusercontent.com", "app-secret");
               (tokenB, "42.apps.googleusercontent.com", "app-secret")]).
Proof.
  split.
  - destruct (two_stored_credentials
                (sampleHost [sampleAppEntry; alice "FitBit"; bob "FitBit"])
                (sampleConfig "FitBit") None emptyState _
                (alice "FitBit") (bob "FitBit") tokenA tokenB "/ckpt/google"
                eq_refl eq_refl eq_refl eq_refl eq_refl) as [H _].
    destruct (H eq_refl) as [_ (s' & Hrun & _ & _ & Hg)]. eauto.
  - destruct (two_stored_credentials
                (sampleHost [sampleAppEntry; alice "GoogleFitness"; bob "FitBit";
                             bob "GoogleFitness"])
                (sampleConfig "GoogleFitness") None emptyState _
                (alice "GoogleFitness") (bob "GoogleFitness")
                tokenA tokenB "/ckpt/google"
                eq_refl eq_refl eq_refl eq_refl eq_refl) as [_ H].
    destruct (H eq_refl eq_refl (fun t => ex_intro _ _ eq_refl))
      as (s' & Hrun & _ & Hg). eauto.
Defined.

(** With [Unknown] configured and a credential of that realm stored,
    the run fails only after two store queries and a checkpoint read;
    with no such credential it does not fail at all. *)
Lemma unknown_provider_reaches_store :
  fst (StreamEvents (sampleHost [sampleAppEntry; alice "Unknown"])
         (sampleConfig "Unknown") None emptyState)
    = Fatal "Unsupported reader requested: Unknown"
  /\ queried_store
       (trace (snd (StreamEvents (sampleHost [sampleAppEntry; alice "Unknown"])
                      (sampleConfig "Unknown") None emptyState))) = true
  /\ touched_checkpoint
       (trace (snd (StreamEvents (sampleHost [sampleAppEntry; alice "Unknown"])
                      (sampleConfig "Unknown") None emptyState))) = true
  /\ fst (StreamEvents (sampleHost [sampleAppEntry]) (sampleConfig "Unknown")
              None emptyState) = Ok tt.
Proof. vm_compute. auto. Qed.

Lemma unknown_provider_rejected_by_validation_witness :
  (exists v,
      knownStrategy v = false
      /\ ValidateScheme (Val (sampleConfig "Unknown")) emptyState =
           (Ok (false, "Improper service '" +:+ v +:+ "' name indicated."), emptyState))
  /\ (exists evs,
         trace (snd (StreamEvents (sampleHost []) (sampleConfig "Unknown") None emptyState)) =
           trace (configRead None emptyState) ++ EvGetEntities "session" :: evs).
Proof.
  apply (unknown_provider_rejected_by_validation
           (sampleHost []) (sampleConfig "Unknown") None emptyState
           {| StanzaName := "fitness://google";
              Params := [ {| Name := ENFORCE_CERT_VALIDATION; Value := "true" |};
                          {| Name := STRATEGY_PARAM_NAME; Value := "Unknown" |} ] |}
           {| Name := STRATEGY_PARAM_NAME; Value := "Unknown" |}).
  - simpl. auto.
  - simpl. auto.
  - reflexivity.
  - reflexivity.
Defined.

Lemma getTokens_only_matching_realm_witness :
  exists entries,
    passwords (sampleHost [sampleAppEntry; alice "GoogleFitness"; bob "FitBit"])
      = Val entries
    /\ Forall2
         (fun entry token =>
            hasRealm "GoogleFitness" entry = true /\ entryToken entry = Val token)
         (List.filter (hasRealm "GoogleFitness") entries)
         [tokenA].
Proof.
  exact (getTokens_only_matching_realm
           (sampleHost [sampleAppEntry; alice "GoogleFitness"; bob "FitBit"])
           (sampleConfig "GoogleFitness") [tokenA] emptyState _ eq_refl).
Defined.

(** The Unix epoch, the nanosecond before it, and the last nanosecond of
    the year 9999. *)
Lemma checkpoint_roundtrip_witness :
  (exists s1 s2,
      writeCheckPoint (sampleHost []) (sampleConfig "GoogleFitness") 0 emptyState
        = (Ok tt, s1)
      /\ files s1 !! "/ckpt/google"
           = Some [1; 0;0;0;14;119;145;247;0; 0;0;0;0; 255;255]
      /\ readCheckPoint (sampleHost []) (sampleConfig "GoogleFitness") s1
           = (Ok (0, None), s2))
  /\ (exists s1 s2,
         writeCheckPoint (sampleHost []) (sampleConfig "GoogleFitness") (-1) emptyState
           = (Ok tt, s1)
         /\ files s1 !! "/ckpt/google"
              = Some [1; 0;0;0;14;119;145;246;255; 59;154;201;255; 255;255]
         /\ readCheckPoint (sampleHost []) (sampleConfig "GoogleFitness") s1
              = (Ok (-1, None), s2))
  /\ (exists s1 s2,
         writeCheckPoint (sampleHost []) (sampleConfig "GoogleFitness")
           253402300799999999999 emptyState = (Ok tt, s1)
         /\ files s1 !! "/ckpt/google"
              = Some [1; 0;0;0;73;119;134;56;127; 59;154;201;255; 255;255]
         /\ readCheckPoint (sampleHost []) (sampleConfig "GoogleFitness") s1
              = (Ok (253402300799999999999, None), s2)).
Proof.
  split; [|split].
  - exact (checkpoint_roundtrip (sampleHost []) (sampleConfig "GoogleFitness")
             "/ckpt/google" 0 _ emptyState eq_refl eq_refl eq_refl eq_refl).
  - exact (checkpoint_roundtrip (sampleHost []) (sampleConfig "GoogleFitness")
             "/ckpt/google" (-1) _ emptyState eq_refl eq_refl eq_refl eq_refl).
  - exact (checkpoint_roundtrip (sampleHost []) (sampleConfig "GoogleFitness")
             "/ckpt/google" 253402300799999999999 _ emptyState
             eq_refl eq_refl eq_refl eq_refl).
Defined.

(** A checkpoint two hours ahead of the clock gives a window whose
    start lies after its end. *)
Lemma future_checkpoint_inverts_window :
  fst (getTimes (sampleHost []) (sampleConfig "GoogleFitness")
         (checkpointed [1; 0;0;0;14;206;251;105;144; 0;0;0;0; 255;255]))
    = Ok (1466528400000000000, 1466521200000000000)
  /\ ~ 1466528400000000000 <= 1466521200000000000.
Proof. split; [vm_compute; reflexivity | lia]. Qed.

Lemma getTimes_window_ordered_witness :
  exists startTime endTime s',
    getTimes (sampleHost []) (sampleConfig "GoogleFitness")
      (checkpointed [1; 0;0;0;14;206;251;5;16; 0;0;0;0; 255;255])
      = (Ok (startTime, endTime), s')
    /\ startTime <= endTime.
Proof.
  apply (getTimes_window_ordered (sampleHost []) (sampleConfig "GoogleFitness")
           "/ckpt/google").
  - reflexivity.
  - intros i j Hij. simpl. lia.
  - intros b t Hb Hd. vm_compute in Hb. injection Hb as <-.
    vm_compute in Hd. injection Hd as <-. vm_compute. discriminate.
Defined.

Lemma StreamEvents_no_credentials_witness :
  exists s1,
    StreamEvents (sampleHost [sampleAppEntry; bob "FitBit"])
      (sampleConfig "GoogleFitness") None emptyState = (Ok tt, s1)
    /\ files s1 = ∅
    /\ ticks s1 = 0%nat
    /\ trace s1 = [EvGetEntities "session"].
Proof.
  eexists.
  apply (StreamEvents_no_credentials (sampleHost [sampleAppEntry; bob "FitBit"])
           (sampleConfig "GoogleFitness") None emptyState).
  reflexivity.
Defined.

(** The checkpoint directory refuses the write after the first fetch:
    the second credential is never reached. *)
Lemma checkpoint_failure_stops_run_witness :
  exists msg s',
    StreamEvents
      (readOnlyHost [sampleAppEntry; alice "GoogleFitness"; bob "GoogleFitness"])
      (sampleConfig "GoogleFitness") None emptyState = (Fatal msg, s')
    /\ files s' = ∅
    /\ ticks s' = 3%nat
    /\ (trace s' =
          [EvGetEntities "session"; EvGetEntities "session";
           EvGetClient tokenA "42.apps.googleusercontent.com" "app-secret";
           EvReadFile "/ckpt/google";
           EvLog ("Unable to read checkpoint file:"
                  +:+ "open /ckpt/google: no such file or directory" +:+ nl);
           EvGetData (tokenA, "42.apps.googleusercontent.com", "app-secret")
             1466521200001000000 1466521200002000000]
        \/ exists p,
            trace s' =
              [EvGetEntities "session"; EvGetEntities "session";
               EvGetClient tokenA "42.apps.googleusercontent.com" "app-secret";
               EvReadFile "/ckpt/google";
               EvLog ("Unable to read checkpoint file:"
                      +:+ "open /ckpt/google: no such file or directory" +:+ nl);
               EvGetData (tokenA, "42.apps.googleusercontent.com", "app-secret")
                 1466521200001000000 1466521200002000000]
              ++ [EvWriteFailed p]).
Proof.
  apply (checkpoint_failure_stops_run
           (readOnlyHost [sampleAppEntry; alice "GoogleFitness"; bob "GoogleFitness"])
           (sampleConfig "GoogleFitness") None emptyState [] tokenA [tokenB]
           {| files := ∅; ticks := 0; trace := [EvGetEntities "session"] |}
           {| files := ∅; ticks := 0; trace := [EvGetEntities "session"] |}
           1466521200002000000
           {| files := ∅; ticks := 3; trace := _ |}).
  - reflexivity.
  - reflexivity.
  - reflexivity.
  - right. eexists _, "/ckpt/google", _. repeat split; reflexivity.
Defined.

Lemma getAppCredentials_resolution_witness :
  (exists s',
      getAppCredentials (sampleHost [alice "GoogleFitness"; sampleAppEntry])
        (sampleConfig "GoogleFitness") emptyState
        = (Ok ("42.apps.googleusercontent.com", "app-secret"), s'))
  /\ (exists s',
         getAppCredentials (sampleHost [alice "GoogleFitness"])
           (sampleConfig "GoogleFitness") emptyState = (Ok ("", ""), s'))
  /\ (exists msg s',
         getAppCredentials
           {| passwords := Err "connection refused";
              write_error := fun _ => None; clock := fun _ => 0 |}
           (sampleConfig "GoogleFitness") emptyState = (Fatal msg, s')).
Proof.
  split; [|split].
  - eexists.
    exact (proj1 (getAppCredentials_resolution
                    (sampleHost [alice "GoogleFitness"; sampleAppEntry])
                    (sampleConfig "GoogleFitness") emptyState)).
  - eexists.
    exact (proj2 (getAppCredentials_resolution (sampleHost [alice "GoogleFitness"])
                    (sampleConfig "GoogleFitness") emptyState) eq_refl).
  - eexists _, _.
    exact (getAppCredentials_resolution
             {| passwords := Err "connection refused";
                write_error := fun _ => None; clock := fun _ => 0 |}
             (sampleConfig "GoogleFitness") emptyState).
Defined.

(** * Further runs on sample inputs *)

Lemma validated_strategy_is_known_witness :
  (exists v, knownStrategy v = true
             /\ getStrategy (sampleConfig "Microsoft") emptyState = (Ok v, emptyState))
  \/ (Forall (fun param => Name param <> STRATEGY_PARAM_NAME)
             (allParams (Stanzas (sampleConfig "Microsoft")))
      /\ getStrategy (sampleConfig "Microsoft") emptyState
           = (Fatal "No strategy passed to Fitness Input", emptyState)).
Proof.
  exact (validated_strategy_is_known (sampleConfig "Microsoft") emptyState emptyState
           eq_refl).
Defined.

Lemma getTokens_decode_failure_witness :
  getTokens
    (sampleHost [alice "GoogleFitness"; sampleEntry "GoogleFitness" "not a token";
                 bob "GoogleFitness"])
    (sampleConfig "GoogleFitness") emptyState =
    (Fatal ("Failed to decode passwords from storage/passwords: "
            +:+ "unexpected end of JSON input" +:+ nl +:+ " JSON to Decode: "
            +:+ payload (sampleEntry "GoogleFitness" "not a token") +:+ nl),
     storeQueried (sampleConfig "GoogleFitness") emptyState).
Proof.
  apply (getTokens_decode_failure _ _ [alice "GoogleFitness"] _ [bob "GoogleFitness"]
           [tokenA]).
  - reflexivity.
  - discriminate.
  - constructor; [reflexivity|constructor].
  - reflexivity.
  - reflexivity.
Defined.

Lemma getTokens_ignores_other_realms_witness :
  getTokens (sampleHost [alice "GoogleFitness"; sampleEntry "FitBit" "not a token"])
    (sampleConfig "GoogleFitness") emptyState
  = getTokens (sampleHost [alice "GoogleFitness"])
      (sampleConfig "GoogleFitness") emptyState.
Proof.
  apply (getTokens_ignores_other_realms _ _ _ [alice "GoogleFitness"]
           (sampleEntry "FitBit" "not a token") []).
  - reflexivity.
  - reflexivity.
  - discriminate.
  - reflexivity.
Defined.

Lemma getTokens_without_strategy_witness :
  getTokens (sampleHost [sampleAppEntry; alice "GoogleFitness"]) noServiceConfig emptyState
  = (Fatal "No strategy passed to Fitness Input", storeQueried noServiceConfig emptyState)
  /\ getTokens (sampleHost [sampleAppEntry]) noServiceConfig emptyState
     = (Ok [], storeQueried noServiceConfig emptyState).
Proof.
  split.
  - exact (getTokens_without_strategy
             (sampleHost [sampleAppEntry; alice "GoogleFitness"]) noServiceConfig
             _ emptyState eq_refl eq_refl).
  - exact (getTokens_without_strategy (sampleHost [sampleAppEntry]) noServiceConfig
             _ emptyState eq_refl eq_refl).
Defined.

Lemma getTimes_resumes_at_checkpoint_witness :
  exists s1 s2,
    writeCheckPoint (sampleHost []) (sampleConfig "GoogleFitness")
      1466517600000000000 emptyState = (Ok tt, s1)
    /\ getTimes (sampleHost []) (sampleConfig "GoogleFitness") s1
         = (Ok (1466517600000000000, 1466521200000000000), s2)
    /\ ticks s2 = 1%nat
    /\ files s2 = <["/ckpt/google" :=
                     [1; 0;0;0;14;206;251;63;96; 0;0;0;0; 255;255]]> ∅
    /\ trace s2 =
         [EvWriteFile "/ckpt/google" [1; 0;0;0;14;206;251;63;96; 0;0;0;0; 255;255];
          EvReadFile "/ckpt/google"].
Proof.
  exact (getTimes_resumes_at_checkpoint (sampleHost []) (sampleConfig "GoogleFitness")
           "/ckpt/google" 1466517600000000000 _ emptyState
           eq_refl eq_refl eq_refl eq_refl).
Defined.

Lemma getTimes_first_run_witness :
  exists s',
    getTimes (sampleHost []) (sampleConfig "GoogleFitness") emptyState
      = (Ok (1466521200001000000, 1466521200002000000), s')
    /\ files s' = ∅
    /\ ticks s' = 3%nat
    /\ trace s' =
         [EvReadFile "/ckpt/google";
          EvLog ("Unable to read checkpoint file:"
                 +:+ ("open " +:+ "/ckpt/google" +:+ ": no such file or directory")
                 +:+ nl)].
Proof.
  exact (getTimes_first_run (sampleHost []) (sampleConfig "GoogleFitness")
           "/ckpt/google" emptyState eq_refl eq_refl).
Defined.

Lemma last_checkpoint_write_wins_witness :
  exists s1 s2 s3,
    writeCheckPoint (sampleHost []) (sampleConfig "GoogleFitness")
      1466528400000000000 emptyState = (Ok tt, s1)
    /\ writeCheckPoint (sampleHost []) (sampleConfig "GoogleFitness")
         1466517600000000000 s1 = (Ok tt, s2)
    /\ files s2 = <["/ckpt/google" :=
                     [1; 0;0;0;14;206;251;63;96; 0;0;0;0; 255;255]]> ∅
    /\ readCheckPoint (sampleHost []) (sampleConfig "GoogleFitness") s2
         = (Ok (1466517600000000000, None), s3).
Proof.
  exact (last_checkpoint_write_wins (sampleHost []) (sampleConfig "GoogleFitness")
           "/ckpt/google" 1466528400000000000 1466517600000000000 _ _ emptyState
           eq_refl eq_refl eq_refl eq_refl eq_refl).
Defined.

Lemma fetch_starts_at_shared_checkpoint_witness :
  fetch (sampleHost [sampleAppEntry]) (sampleConfig "GoogleFitness") tokenB
    (checkpointed [1; 0;0;0;14;206;251;63;96; 0;0;0;0; 255;255])
  = (Ok 1466521200000000000,
     {| files := {[ "/ckpt/google" := [1; 0;0;0;14;206;251;63;96; 0;0;0;0; 255;255] ]};
        ticks := 1;
        trace :=
          [EvGetEntities "session";
           EvGetClient tokenB "42.apps.googleusercontent.com" "app-secret";
           EvReadFile "/ckpt/google";
           EvGetData (tokenB, "42.apps.googleusercontent.com", "app-secret")
             1466517600000000000 1466521200000000000] |}).
Proof.
  exact (fetch_starts_at_shared_checkpoint (sampleHost [sampleAppEntry])
           (sampleConfig "GoogleFitness") [sampleAppEntry] "/ckpt/google" tokenB
           [1; 0;0;0;14;206;251;63;96; 0;0;0;0; 255;255] 1466517600000000000
           (checkpointed [1; 0;0;0;14;206;251;63;96; 0;0;0;0; 255;255])
           eq_refl eq_refl eq_refl eq_refl eq_refl).
Defined.

Lemma processToken_leaves_checkpoint_witness :
  exists startTime endTime g s',
    processToken (sampleHost [sampleAppEntry]) (sampleConfig "GoogleFitness")
      tokenA emptyState = (Ok tt, s')
    /\ GobEncode (GoogleFitnessReader_getData startTime endTime
                    (clientFor [sampleAppEntry] tokenA)) = Val g
    /\ files s' = <["/ckpt/google" := g]> ∅
    /\ exists evs,
         trace s' = [] ++ evs
                    ++ [EvGetData (clientFor [sampleAppEntry] tokenA) startTime endTime;
                        EvWriteFile "/ckpt/google" g].
Proof.
  exact (processToken_leaves_checkpoint (sampleHost [sampleAppEntry])
           (sampleConfig "GoogleFitness") [sampleAppEntry] "/ckpt/google" tokenA
           emptyState eq_refl eq_refl eq_refl eq_refl
           (fun t => ex_intro _ _ eq_refl)).
Defined.

Lemma StreamEvents_google_run_witness :
  exists s',
    StreamEvents
      (sampleHost [sampleAppEntry; alice "GoogleFitness"; bob "FitBit";
                   bob "GoogleFitness"])
      (sampleConfig "GoogleFitness") None emptyState = (Ok tt, s')
    /\ built_clients (trace s') =
         [(tokenA, "42.apps.googleusercontent.com", "app-secret");
          (tokenB, "42.apps.googleusercontent.com", "app-secret")]
    /\ getData_clients (trace s') =
         [(tokenA, "42.apps.googleusercontent.com", "app-secret");
          (tokenB, "42.apps.googleusercontent.com", "app-secret")]
    /\ store_queries (trace s') = 3%nat
    /\ checkpoint_writes (trace s') = 2%nat.
Proof.
  apply (StreamEvents_google_run
           (sampleHost [sampleAppEntry; alice "GoogleFitness"; bob "FitBit";
                        bob "GoogleFitness"])
           (sampleConfig "GoogleFitness") None emptyState
           [sampleAppEntry; alice "GoogleFitness"; bob "FitBit"; bob "GoogleFitness"]
           [tokenA; tokenB] "/ckpt/google").
  - reflexivity.
  - reflexivity.
  - constructor; [reflexivity|]. constructor; [reflexivity|]. constructor.
  - reflexivity.
  - reflexivity.
  - intros t. eexists. reflexivity.
Defined.

Lemma StreamEvents_writes_only_checkpoint_witness :
  files (snd (StreamEvents (sampleHost [sampleAppEntry; alice "GoogleFitness"])
                (sampleConfig "GoogleFitness") None
                (checkpointed [0]))) !! "/ckpt/fitbit"
  = files (checkpointed [0]) !! "/ckpt/fitbit".
Proof.
  apply (StreamEvents_writes_only_checkpoint "/ckpt/fitbit").
  discriminate.
Defined.

Lemma StreamEvents_undefined_path_panics_witness :
  exists entries,
    passwords (sampleHost [sampleAppEntry; alice "GoogleFitness"]) = Val entries
    /\ StreamEvents (sampleHost [sampleAppEntry; alice "GoogleFitness"])
         bareNameConfig None emptyState =
         (Panic "runtime error: index out of range",
          clientBuilt bareNameConfig entries tokenA
            (storeQueried bareNameConfig emptyState)).
Proof.
  apply (StreamEvents_undefined_path_panics
           (sampleHost [sampleAppEntry; alice "GoogleFitness"])
           bareNameConfig None emptyState tokenA []).
  - reflexivity.
  - reflexivity.
Defined.


Lemma checkpoint_write_follows_fetch_witness :
  exists pre' client startTime endTime,
    [EvGetEntities "session"; EvGetEntities "session";
     EvGetClient tokenA "42.apps.googleusercontent.com" "app-secret";
     EvReadFile "/ckpt/google";
     EvLog ("Unable to read checkpoint file:"
            +:+ "open /ckpt/google: no such file or directory" +:+ nl);
     EvGetData (tokenA, "42.apps.googleusercontent.com", "app-secret")
       1466521200001000000 1466521200002000000]
    = pre' ++ [EvGetData client startTime endTime].
Proof.
  apply (checkpoint_write_follows_fetch
           (sampleHost [sampleAppEntry; alice "GoogleFitness"])
           (sampleConfig "GoogleFitness") None emptyState
           [EvGetEntities "session"; EvGetEntities "session";
            EvGetClient tokenA "42.apps.googleusercontent.com" "app-secret";
            EvReadFile "/ckpt/google";
            EvLog ("Unable to read checkpoint file:"
                   +:+ "open /ckpt/google: no such file or directory" +:+ nl);
            EvGetData (getClient tokenA "42.apps.googleusercontent.com" "app-secret")
              1466521200001000000 1466521200002000000]
           (EvWriteFile "/ckpt/google"
              [1; 0;0;0;14;206;251;77;112; 0;30;132;128; 255;255])
           []).
  - reflexivity.
  - reflexivity.
Defined.

Lemma getCheckPointPath_of_decomposition_witness :
  getCheckPointPath
    {| SessionKey := "session"; CheckpointDir := "/ckpt";
       Stanzas := [ {| StanzaName := "fitness://google://eu"; Params := [] |} ] |}
  = Some "/ckpt/google".
Proof.
  exact (getCheckPointPath_of_decomposition
           {| SessionKey := "session"; CheckpointDir := "/ckpt";
              Stanzas := [ {| StanzaName := "fitness://google://eu"; Params := [] |} ] |}
           {| StanzaName := "fitness://google://eu"; Params := [] |}
           [] "fitness" "google" "://eu"
           eq_refl eq_refl eq_refl eq_refl (or_intror eq_refl)).
Defined.

Lemma StreamEvents_store_failure_witness :
  StreamEvents offlineHost (sampleConfig "GoogleFitness") None emptyState =
    (Fatal ("Unable to get user tokens from Splunk: " +:+ "connection refused" +:+ nl),
     storeQueried (sampleConfig "GoogleFitness") (configRead None emptyState)).
Proof.
  exact (StreamEvents_store_failure offlineHost (sampleConfig "GoogleFitness") None
           "connection refused" emptyState eq_refl).
Defined.
